(** * dockerizeme: the Python source parser, [src/languages/python/parse.py]

    A shallow embedding of [parse.py] and of the interpreter services it
    calls, followed by the properties of its three functions
    [parse_method_call_tokens], [parse_file] and [main]. *)

From Stdlib Require Import ZArith Lia Ascii String.
From stdpp Require Import base strings list gmap.

Local Open Scope string_scope.
Local Open Scope list_scope.
Local Open Scope Z_scope.

Set Warnings "-register-all,-clear-no-such-hyp".

(** ** Python values and exceptions *)

(** The exception classes that can reach [parse.py]. *)
Inductive exn_class :=
| SyntaxError | IndentationError | TabError
| TypeError | ValueError | MemoryError | RuntimeError | AttributeError
| IOError | OSError | UnicodeDecodeError | GetoptError | Exception.

Record exn := Exn { exn_cls : exn_class; exn_msg : string }.

(** The outcome of a Python call: a value, or a raised exception. *)
Inductive result (A : Type) :=
| Ok (a : A)
| Raise (e : exn).
Arguments Ok {A} a.
Arguments Raise {A} e.

(** [isinstance(e, SyntaxError)]: what [except SyntaxError:] catches.
    [IndentationError] and [TabError] derive from [SyntaxError]. *)
Definition is_SyntaxError (e : exn) : bool :=
  match exn_cls e with
  | SyntaxError | IndentationError | TabError => true
  | _ => false
  end.

(** The double quote and the line feed, as one-character strings. *)
Definition dquote : string := String "034"%char EmptyString.
Definition newline : string := String "010"%char EmptyString.

(** ** String helpers ([str] methods used by [posixpath] and [getopt]) *)

(** [s.startswith(pre)] *)
Fixpoint startswith (pre s : string) : bool :=
  match pre, s with
  | EmptyString, _ => true
  | String a pre', String b s' => Ascii.eqb a b && startswith pre' s'
  | String _ _, EmptyString => false
  end.

(** [s.endswith(suf)] *)
Fixpoint endswith (suf s : string) : bool :=
  if String.eqb s suf then true
  else match s with
       | EmptyString => false
       | String _ rest => endswith suf rest
       end.

(** [s.rfind(c)] for a one-character [c]: the highest index, or [-1]. *)
Fixpoint rfind (c : ascii) (s : string) : Z :=
  match s with
  | EmptyString => -1
  | String a rest =>
      let i := rfind c rest in
      if 0 <=? i then i + 1
      else if Ascii.eqb a c then 0 else -1
  end.

(** [s.split('/')] *)
Fixpoint split_slash (s : string) : list string :=
  match s with
  | EmptyString => [EmptyString]
  | String a rest =>
      if Ascii.eqb a "/" then EmptyString :: split_slash rest
      else match split_slash rest with
           | h :: t => String a h :: t
           | [] => [String a EmptyString]
           end
  end.

(** ['/'.join(comps)] *)
Fixpoint join_slash (comps : list string) : string :=
  match comps with
  | [] => ""
  | [c] => c
  | c :: rest => c +:+ "/" +:+ join_slash rest
  end.

(** ['/' * n] *)
Fixpoint slashes (n : nat) : string :=
  match n with
  | O => ""
  | S n' => "/" +:+ slashes n'
  end.

(** ** [posixpath] *)

(** [posixpath.isabs] *)
Definition isabs (s : string) : bool := startswith "/" s.

(** [posixpath.join(a, b)] with one trailing component. *)
Definition join (a b : string) : string :=
  if startswith "/" b then b
  else if String.eqb a "" || endswith "/" a then a +:+ b
  else a +:+ "/" +:+ b.

(** One round of the component loop of [posixpath.normpath]. *)
Definition normpath_step (initial_slashes : nat) (new_comps : list string)
    (comp : string) : list string :=
  if String.eqb comp "" || String.eqb comp "." then new_comps
  else if negb (String.eqb comp "..")
          || (Nat.eqb initial_slashes 0 && bool_decide (new_comps = []))
          || bool_decide (last new_comps = Some "..")
       then new_comps ++ [comp]
       else removelast new_comps.

(** [posixpath.normpath] *)
Definition normpath (path : string) : string :=
  if String.eqb path "" then "."
  else
    let initial_slashes : nat :=
      if startswith "/" path
      then if startswith "//" path && negb (startswith "///" path)
           then 2%nat else 1%nat
      else 0%nat in
    let comps := fold_left (normpath_step initial_slashes) (split_slash path) [] in
    let path' := slashes initial_slashes +:+ join_slash comps in
    if String.eqb path' "" then "." else path'.

(** The scan over the leading dots of the last component in
    [genericpath._splitext]: is there, among the [n] characters of [p]
    from index [i] on, one that is not a dot? *)
Fixpoint has_non_dot (p : string) (i n : nat) : bool :=
  match n with
  | O => false
  | S n' =>
      match String.get i p with
      | Some c => if Ascii.eqb c "." then has_non_dot p (S i) n' else true
      | None => false
      end
  end.

(** [posixpath.splitext] *)
Definition splitext (p : string) : string * string :=
  let sepIndex := rfind "/" p in
  let dotIndex := rfind "." p in
  if sepIndex <? dotIndex then
    if has_non_dot p (Z.to_nat (sepIndex + 1)) (Z.to_nat (dotIndex - (sepIndex + 1)))
    then (String.substring 0 (Z.to_nat dotIndex) p,
          String.substring (Z.to_nat dotIndex) (String.length p - Z.to_nat dotIndex) p)
    else (p, "")
  else (p, "").

(** ** [getopt] *)

(** [getopt.getopt(args, '', [])]: with no short and no long option
    declared, every option is unrecognised.  The result is the list of
    positional arguments ([opts] is always empty). *)
Definition getopt (args : list string) : result (list string) :=
  match args with
  | [] => Ok []
  | a :: rest =>
      if startswith "-" a && negb (String.eqb a "-") then
        if String.eqb a "--" then Ok rest
        else if startswith "--" a
             then Raise (Exn GetoptError ("option " +:+ a +:+ " not recognized"))
             else Raise (Exn GetoptError
                           ("option -" +:+ String.substring 1 1 a +:+ " not recognized"))
      else Ok args
  end.

(** ** The syntax tree

    The node classes of Python's [ast] module that the analysis tells
    apart; every other class is [ast_Other], with its child nodes in
    field order. *)

Record alias := Alias { alias_name : string; alias_asname : option string }.

Inductive node :=
| ast_Module (body : list node)
| ast_Import (names : list alias)
| ast_ImportFrom (module : string) (names : list alias)
| ast_Expr (value : node)
| ast_Call (func : node) (args : list node)
| ast_Attribute (value : node) (attr : string)
| ast_Name (id : string)
| ast_Str (s : string)
| ast_Dict (keys values : list node)
| ast_Other (children : list node).

(** ** External collaborators *)

(** [ast.parse]: the tree of a source text, or the exception raised. *)
Class SyntaxTreeProvider := { ast_parse : string -> result node }.

(** [visitor.py], as [parse.py] uses it: the constructor
    [ParserVisitor()], the inherited [visit] method, which updates the
    instance in place or raises, and the two attributes read afterwards
    (in the order in which [list(...)] iterates them). *)
Class visitor_py := {
  visitor : Type;
  ParserVisitor : visitor;
  visit : visitor -> node -> result visitor;
  import_libraries : visitor -> list string;
  calls : visitor -> list string;
}.

(** The operating-system services behind [os], [os.path] and [open]. *)
Class OS := {
  getcwd : string;
  isdir : string -> bool;
  isfile : string -> bool;
  listdir : string -> result (list string);
  open_read : string -> result string;   (* [open(p, 'r')] then [.read()] *)
}.

(** The report of one file, [{'imports': [...], 'calls': [...]}], and the
    dictionary [data] of [main], from path to report. *)
Abbreviation FileReport := (gmap string (list string)).
Abbreviation CorpusReport := (gmap string (gmap string (list string))).

(** [json.dumps]; serialising the empty dictionary gives ["{}"]. *)
Class JSON := {
  json_dumps : CorpusReport -> result string;
  json_dumps_empty : json_dumps ∅ = Ok "{}";
}.

(** [posixpath.abspath] *)
Definition abspath `{OS} (path : string) : string :=
  normpath (if isabs path then path else join getcwd path).

(** ** [parse_method_call_tokens] *)

(** [str(snippet)] on a byte string. *)
Definition py_str (snippet : string) : string := snippet.

Definition empty_report : FileReport := {[ "imports" := []; "calls" := [] ]}.

Definition parse_method_call_tokens `{SyntaxTreeProvider} `{visitor_py}
    (snippet : string) : result FileReport :=
  let try_block : result (list string * list string) :=
    match ast_parse (py_str snippet) with
    | Raise e => Raise e
    | Ok tree =>
        let visitor := ParserVisitor in
        match visit visitor tree with
        | Raise e => Raise e
        | Ok visitor => Ok (import_libraries visitor, calls visitor)
        end
    end in
  match try_block with
  | Ok (imports, calls) => Ok {[ "imports" := imports; "calls" := calls ]}
  | Raise e =>
      if is_SyntaxError e then Ok {[ "imports" := []; "calls" := [] ]}
      else Raise e
  end.

(** ** Effects: the history of a run *)

(** What a run does to the outside: it calls [open] on a path, whether
    or not the file can then be read, and it prints lines on standard
    output.  A history lists the events, oldest first. *)
Inductive event :=
| Open (path : string)
| Print (text : string).

Definition history := list event.

(** A computation maps the history so far to an outcome and the history
    after it; an exception leaves the history as it was when raised. *)
Definition M (A : Type) : Type := history -> result A * history.

#[global] Instance M_ret : MRet M := λ A a σ, (Ok a, σ).
#[global] Instance M_bind : MBind M := λ A B f m σ,
  match m σ with
  | (Ok a, σ') => f a σ'
  | (Raise e, σ') => (Raise e, σ')
  end.

Definition raise {A} (e : exn) : M A := λ σ, (Raise e, σ).
Definition lift {A} (r : result A) : M A := λ σ, (r, σ).
Definition py_print (text : string) : M unit := λ σ, (Ok (), σ ++ [Print text]).
Definition py_open_read `{OS} (path : string) : M string :=
  λ σ, (open_read path, σ ++ [Open path]).

(** The lines printed, and the files opened, in a history. *)
Definition stdout (σ : history) : list string :=
  omap (λ ev, match ev with Print t => Some t | _ => None end) σ.
Definition opened (σ : history) : list string :=
  omap (λ ev, match ev with Open p => Some p | _ => None end) σ.

(** ** [parse_file] *)

Definition parse_file `{OS} `{SyntaxTreeProvider} `{visitor_py}
    (filename : string) : M FileReport :=
  text ← py_open_read (abspath filename);
  lift (parse_method_call_tokens text).

(** ** [main] *)

(** The body of [for filename in os.listdir(pathname)], over the entries
    still to come, with the dictionary [data] built so far. *)
Fixpoint main_listdir_loop `{OS} `{SyntaxTreeProvider} `{visitor_py}
    (pathname : string) (entries : list string) (data : CorpusReport)
    : M CorpusReport :=
  match entries with
  | [] => mret data
  | filename :: entries' =>
      let filename := join pathname filename in
      let '(fname, fext) := splitext filename in
      if isfile filename && String.eqb fext ".py" then
        report ← parse_file filename;
        main_listdir_loop pathname entries' (<[filename := report]> data)
      else main_listdir_loop pathname entries' data
  end.

Definition usage : exn := Exn Exception "Usage: python parse.py <filename>".

(** Lines 104 to 118 of [main]: the dictionary [data] for [pathname]. *)
Definition main_collect `{OS} `{SyntaxTreeProvider} `{visitor_py}
    (pathname : string) : M CorpusReport :=
  let data : CorpusReport := ∅ in
  if isdir pathname then
    entries ← lift (listdir pathname);
    main_listdir_loop pathname entries data
  else if isfile pathname then
    report ← parse_file pathname;
    mret (<[pathname := report]> data)
  else
    _ ← py_print (pathname +:+ " is not a directory or file.");
    mret data.

(** [main], with [argv] for [sys.argv[1:]]. *)
Definition main `{OS} `{SyntaxTreeProvider} `{visitor_py} `{JSON}
    (argv : list string) : M unit :=
  args ← lift (getopt argv);
  match args with
  | [] => raise usage
  | arg0 :: _ =>
      let pathname := abspath arg0 in
      data ← main_collect pathname;
      text ← lift (json_dumps data);
      py_print text
  end.

(** The entries of a directory listing that the loop of [main] hands to
    [parse_file], as paths, in listing order. *)
Definition source_files `{OS} (pathname : string) (entries : list string)
    : list string :=
  filter (λ filename, isfile filename = true ∧ (splitext filename).2 = ".py")
         (join pathname <$> entries).

(** ** Directory entries *)

(** [c in s], for a character [c]. *)
Fixpoint contains (c : ascii) (s : string) : bool :=
  match s with
  | EmptyString => false
  | String a rest => Ascii.eqb a c || contains c rest
  end.

(** A name as [os.listdir] returns them: not empty, neither [.] nor
    [..], and without a slash. *)
Definition entry_name (name : string) : bool :=
  negb (String.eqb name "") && negb (String.eqb name ".")
  && negb (String.eqb name "..") && negb (contains "/" name).

(** ** The visitor of [visitor.py] *)

Module Visitor.

(** Modelled from the spec: the kinds of import binding (section 3). *)
Inductive binding_kind := MODULE | MODULE_ALIAS | MEMBER | MEMBER_ALIAS.

(** Modelled from the spec: the record [ImportBinding] (section 3). *)
Record ImportBinding := {
  local_name : string;
  canonical_library : string;
  kind : binding_kind;
}.

(** Modelled from the spec: the state of one traversal (section 3): the
    Import Binding Table, from local name to the most recent binding,
    the canonical libraries in first-seen order without duplicates, and
    the attributed calls in order of appearance. *)
Record state := {
  table : gmap string ImportBinding;
  libraries : list string;
  call_sites : list string;
}.

(** Modelled from the spec: the state a traversal starts from
    (section 3, lifecycle); [visitor.py] is not among the sources. *)
Definition fresh : state :=
  {| table := ∅; libraries := []; call_sites := [] |}.

(** Modelled from the spec: the leftmost segment of a dotted module
    path, the local name that [import X.Y.Z] binds (section 4.1). *)
Fixpoint first_segment (dotted : string) : string :=
  match dotted with
  | EmptyString => EmptyString
  | String c rest =>
      if Ascii.eqb c "." then EmptyString else String c (first_segment rest)
  end.

(** Modelled from the spec: the binding of one name of [import ...]
    (section 4.1: plain, aliased and dotted module import). *)
Definition bind_module (a : alias) : ImportBinding :=
  match alias_asname a with
  | Some y => {| local_name := y; canonical_library := alias_name a;
                 kind := MODULE_ALIAS |}
  | None => {| local_name := first_segment (alias_name a);
               canonical_library := alias_name a; kind := MODULE |}
  end.

(** Modelled from the spec: the binding of one name of
    [from module import ...] (section 4.1: member imports). *)
Definition bind_member (module : string) (a : alias) : ImportBinding :=
  match alias_asname a with
  | Some z => {| local_name := z; canonical_library := module;
                 kind := MEMBER_ALIAS |}
  | None => {| local_name := alias_name a; canonical_library := module;
               kind := MEMBER |}
  end.

(** Modelled from the spec: installing a binding (section 4.1,
    rebinding: the last binding of a local name wins; section 4.4: the
    libraries keep their first-seen order, without duplicates). *)
Definition install (v : state) (b : ImportBinding) : state :=
  {| table := <[local_name b := b]> (table v);
     libraries := if bool_decide (canonical_library b ∈ libraries v)
                  then libraries v
                  else libraries v ++ [canonical_library b];
     call_sites := call_sites v |}.

(** Modelled from the spec: the outcome of attribution (section 9). *)
Inductive attribution :=
| Resolved (library : string)
| Unresolved (fallback_text : string).

(** Modelled from the spec: the leftmost identifier and the dotted text
    of a callee that is a bare name or an attribute chain on a name
    (section 4.2, steps 1 and 2). *)
Fixpoint chain (callee : node) : option (string * string) :=
  match callee with
  | ast_Name id => Some (id, id)
  | ast_Attribute value attr =>
      match chain value with
      | Some (leftmost, text) => Some (leftmost, text +:+ "." +:+ attr)
      | None => None
      end
  | _ => None
  end.

(** Modelled from the spec: the Call Attribution Resolver (section 4.2).
    [render] is the textual rendering of a callee of any other shape,
    which the spec leaves open. *)
Definition resolve (render : node -> string) (tbl : gmap string ImportBinding)
    (callee : node) : attribution :=
  match chain callee with
  | Some (leftmost, text) =>
      match tbl !! leftmost with
      | Some b => Resolved (canonical_library b)
      | None => Unresolved text
      end
  | None => Unresolved (render callee)
  end.

(** Modelled from the spec: one entry of [calls] per call (section 3:
    the library name, or the fallback text). *)
Definition record (v : state) (a : attribution) : state :=
  {| table := table v;
     libraries := libraries v;
     call_sites := call_sites v ++ [match a with
                                    | Resolved library => library
                                    | Unresolved text => text
                                    end] |}.

(** Modelled from the spec: the Tree Walker (section 4.3): one
    depth-first traversal in source order; import nodes install their
    bindings, a call node is attributed with the table as it is on
    arrival and then traversed, every other node is only traversed. *)
Fixpoint walk (render : node -> string) (n : node) (v : state) : state :=
  let walk_all := fold_left (λ v child, walk render child v) in
  match n with
  | ast_Import names => fold_left (λ v a, install v (bind_module a)) names v
  | ast_ImportFrom module names =>
      fold_left (λ v a, install v (bind_member module a)) names v
  | ast_Call func args =>
      let v := record v (resolve render (table v) func) in
      walk_all args (walk render func v)
  | ast_Module body => walk_all body v
  | ast_Expr value => walk render value v
  | ast_Attribute value _ => walk render value v
  | ast_Dict keys values => walk_all values (walk_all keys v)
  | ast_Other children => walk_all children v
  | ast_Name _ | ast_Str _ => v
  end.

(** Modelled from the spec: [visitor.py] as sections 3 and 4 describe
    it; a traversal never raises (sections 4.2 and 4.3). *)
Definition from_spec (render : node -> string) : visitor_py :=
  {| visitor := state;
     ParserVisitor := fresh;
     visit := λ v tree, Ok (walk render tree v);
     import_libraries := libraries;
     calls := call_sites |}.

End Visitor.

(** ** The object store

    [parse_method_call_tokens] once more, with the visitor as the Python
    object it is: [ParserVisitor()] allocates an instance in the store
    of the interpreter, [visit] updates the store in place, and the two
    attributes are read from the store.  The store outlives a call, so a
    later call starts from the store that the earlier ones have left. *)

Module Store.

(** The store: the attributes set on the class [ParserVisitor] itself,
    which all its instances share, and the attributes of each instance,
    by address. *)
Record store := {
  class_attributes : Visitor.state;
  instances : gmap nat Visitor.state;
}.

(** A visitor class, by what its operations do to the store. *)
Record visitor_class := {
  construct : store → nat * store;                       (* [ParserVisitor()] *)
  visit_in : nat → node → store → result unit * store;   (* [visitor.visit(tree)] *)
  import_libraries_of : nat → store → list string;
  calls_of : nat → store → list string;
}.

(** Lines 43 to 59 of [parse.py], on the store. *)
Definition parse_method_call_tokens `{SyntaxTreeProvider} (V : visitor_class)
    (snippet : string) (s : store) : result FileReport * store :=
  match ast_parse (py_str snippet) with
  | Raise e =>
      (if is_SyntaxError e then Ok {[ "imports" := []; "calls" := [] ]}
       else Raise e, s)
  | Ok tree =>
      let '(visitor, s) := construct V s in
      match visit_in V visitor tree s with
      | (Ok _, s) =>
          (Ok {[ "imports" := import_libraries_of V visitor s;
                 "calls" := calls_of V visitor s ]}, s)
      | (Raise e, s) =>
          (if is_SyntaxError e then Ok {[ "imports" := []; "calls" := [] ]}
           else Raise e, s)
      end
  end.

(** Modelled from the spec: the visitor of [visitor.py] in the store.
    The table and the two sequences belong to the instance and are
    created with it (section 3, lifecycle; section 5: nothing is shared
    between files), so construction allocates a fresh address with the
    state [Visitor.fresh], and a visit updates that address only. *)
Definition per_instance (render : node → string) : visitor_class :=
  {| construct := λ s,
       let address := fresh (dom (instances s)) in
       (address, {| class_attributes := class_attributes s;
                    instances := <[address := Visitor.fresh]> (instances s) |});
     visit_in := λ address tree s,
       match instances s !! address with
       | Some v =>
           (Ok (), {| class_attributes := class_attributes s;
                      instances := <[address := Visitor.walk render tree v]>
                                     (instances s) |})
       | None => (Raise (Exn AttributeError "visitor"), s)
       end;
     import_libraries_of := λ address s,
       match instances s !! address with
       | Some v => Visitor.libraries v
       | None => []
       end;
     calls_of := λ address s,
       match instances s !! address with
       | Some v => Visitor.call_sites v
       | None => []
       end |}.

(** For contrast, not the visitor of the spec: a visitor class that
    keeps the table and the two sequences in class attributes, which
    every instance reads and updates. *)
Definition class_level (render : node → string) : visitor_class :=
  {| construct := λ s,
       let address := fresh (dom (instances s)) in
       (address, {| class_attributes := class_attributes s;
                    instances := <[address := Visitor.fresh]> (instances s) |});
     visit_in := λ address tree s,
       (Ok (), {| class_attributes := Visitor.walk render tree (class_attributes s);
                  instances := instances s |});
     import_libraries_of := λ address s, Visitor.libraries (class_attributes s);
     calls_of := λ address s, Visitor.call_sites (class_attributes s) |}.

(** The store of an interpreter that has created no visitor yet. *)
Definition initial : store :=
  {| class_attributes := Visitor.fresh; instances := ∅ |}.

End Store.

(** ** Sample collaborators

    Concrete instances of the four collaborators, on which the functions
    of [parse.py] can be run: a syntax-tree provider for a fragment of
    Python, a rendering of callees, a file system given by a table, and a
    serialiser. *)

Module Sample.

(** *** A syntax-tree provider for a fragment of Python

    Statements, one per line and not indented: [import] and
    [from ... import] with optional [as], and expression statements
    built from names, string literals, the empty dict display,
    attribute access and calls.  A text with a null byte is refused
    with [TypeError], as [compile] does in Python 2; every other text
    outside the fragment is refused with a [SyntaxError]. *)

Inductive token :=
| T_NAME (s : string)
| T_STRING (s : string)
| T_OP (c : ascii).

Definition in_range (lo hi : nat) (c : ascii) : bool :=
  (lo <=? nat_of_ascii c)%nat && (nat_of_ascii c <=? hi)%nat.

Definition is_ident_char (c : ascii) : bool :=
  in_range 65 90 c || in_range 97 122 c || in_range 48 57 c || Ascii.eqb c "_".

Definition is_quote (c : ascii) : bool :=
  Ascii.eqb c "034" || Ascii.eqb c "'".

Definition is_blank (c : ascii) : bool :=
  Ascii.eqb c " " || Ascii.eqb c "009".

Inductive lex_mode :=
| Idle
| InName (acc : string)
| InString (q : ascii) (acc : string).

Fixpoint lex (mode : lex_mode) (s : string) : option (list token) :=
  match s with
  | EmptyString =>
      match mode with
      | Idle => Some []
      | InName acc => Some [T_NAME acc]
      | InString _ _ => None
      end
  | String c rest =>
      let from_idle (pending : list token) :=
        if is_ident_char c && negb (in_range 48 57 c)
        then (λ ts, pending ++ ts) <$> lex (InName (String c EmptyString)) rest
        else if is_quote c
        then (λ ts, pending ++ ts) <$> lex (InString c EmptyString) rest
        else if is_blank c
        then (λ ts, pending ++ ts) <$> lex Idle rest
        else (λ ts, pending ++ T_OP c :: ts) <$> lex Idle rest in
      match mode with
      | Idle => from_idle []
      | InName acc =>
          if is_ident_char c then lex (InName (acc +:+ String c EmptyString)) rest
          else from_idle [T_NAME acc]
      | InString q acc =>
          if Ascii.eqb c q then (λ ts, T_STRING acc :: ts) <$> lex Idle rest
          else lex (InString q (acc +:+ String c EmptyString)) rest
      end
  end.

Definition is_op (c : ascii) (t : token) : bool :=
  match t with T_OP c' => Ascii.eqb c c' | _ => false end.

Definition is_keyword (k : string) (t : token) : bool :=
  match t with T_NAME s => String.eqb s k | _ => false end.

(** [NAME ('.' NAME)*], after its first name. *)
Fixpoint parse_dotted (acc : string) (ts : list token) : string * list token :=
  match ts with
  | T_OP c :: T_NAME n :: ts' =>
      if Ascii.eqb c "." then parse_dotted (acc +:+ "." +:+ n) ts' else (acc, ts)
  | _ => (acc, ts)
  end.

(** [name ['as' NAME] (',' name ['as' NAME])*] up to the end of the line. *)
Fixpoint parse_aliases (dotted : bool) (fuel : nat) (ts : list token)
    : option (list alias) :=
  match fuel, ts with
  | S fuel', T_NAME n :: ts1 =>
      let '(name, ts2) := if dotted then parse_dotted n ts1 else (n, ts1) in
      let '(asname, ts3) :=
        match ts2 with
        | k :: T_NAME y :: ts3 =>
            if is_keyword "as" k then (Some y, ts3) else (None, ts2)
        | _ => (None, ts2)
        end in
      match ts3 with
      | [] => Some [Alias name asname]
      | sep :: ts4 =>
          if is_op "," sep
          then (λ rest, Alias name asname :: rest) <$> parse_aliases dotted fuel' ts4
          else None
      end
  | _, _ => None
  end.

Fixpoint parse_expr (fuel : nat) (ts : list token) : option (node * list token) :=
  match fuel with
  | O => None
  | S fuel' =>
      match ts with
      | T_NAME id :: ts' => parse_trailers fuel' (ast_Name id) ts'
      | T_STRING s :: ts' => parse_trailers fuel' (ast_Str s) ts'
      | T_OP o :: T_OP c :: ts' =>
          if Ascii.eqb o "{" && Ascii.eqb c "}"
          then parse_trailers fuel' (ast_Dict [] []) ts'
          else None
      | _ => None
      end
  end
with parse_trailers (fuel : nat) (e : node) (ts : list token)
    : option (node * list token) :=
  match fuel with
  | O => None
  | S fuel' =>
      match ts with
      | T_OP c :: T_NAME a :: ts' =>
          if Ascii.eqb c "." then parse_trailers fuel' (ast_Attribute e a) ts'
          else if Ascii.eqb c "(" then
            match parse_args fuel' (T_NAME a :: ts') with
            | Some (args, ts'') => parse_trailers fuel' (ast_Call e args) ts''
            | None => None
            end
          else Some (e, ts)
      | T_OP c :: T_OP d :: ts' =>
          if Ascii.eqb c "(" && Ascii.eqb d ")"
          then parse_trailers fuel' (ast_Call e []) ts'
          else if Ascii.eqb c "(" then
            match parse_args fuel' (T_OP d :: ts') with
            | Some (args, ts'') => parse_trailers fuel' (ast_Call e args) ts''
            | None => None
            end
          else Some (e, ts)
      | T_OP c :: ts' =>
          if Ascii.eqb c "(" then
            match parse_args fuel' ts' with
            | Some (args, ts'') => parse_trailers fuel' (ast_Call e args) ts''
            | None => None
            end
          else Some (e, ts)
      | _ => Some (e, ts)
      end
  end
with parse_args (fuel : nat) (ts : list token) : option (list node * list token) :=
  match fuel with
  | O => None
  | S fuel' =>
      match parse_expr fuel' ts with
      | Some (a, sep :: ts') =>
          if is_op ")" sep then Some ([a], ts')
          else if is_op "," sep then
            match parse_args fuel' ts' with
            | Some (rest, ts'') => Some (a :: rest, ts'')
            | None => None
            end
          else None
      | _ => None
      end
  end.

(** One logical line: [Some None] for a blank line, [None] for a line
    outside the fragment. *)
Definition parse_line (ts : list token) : option (option node) :=
  match ts with
  | [] => Some None
  | k :: ts' =>
      if is_keyword "import" k then
        (λ names, Some (ast_Import names)) <$> parse_aliases true (length ts') ts'
      else if is_keyword "from" k then
        match ts' with
        | T_NAME m :: ts1 =>
            match parse_dotted m ts1 with
            | (module, k' :: ts2) =>
                if is_keyword "import" k'
                then (λ names, Some (ast_ImportFrom module names))
                       <$> parse_aliases false (length ts2) ts2
                else None
            | _ => None
            end
        | _ => None
        end
      else
        match parse_expr (3 * length ts + 3) ts with
        | Some (e, []) => Some (Some (ast_Expr e))
        | _ => None
        end
  end.

(** [text.split('\n')] *)
Fixpoint lines (text : string) : list string :=
  match text with
  | EmptyString => [EmptyString]
  | String c rest =>
      if Ascii.eqb c "010" then EmptyString :: lines rest
      else match lines rest with
           | l :: ls => String c l :: ls
           | [] => [String c EmptyString]
           end
  end.

Fixpoint has_null_byte (text : string) : bool :=
  match text with
  | EmptyString => false
  | String c rest => Ascii.eqb c "000" || has_null_byte rest
  end.

Fixpoint parse_lines (ls : list string) : result (list node) :=
  match ls with
  | [] => Ok []
  | l :: ls' =>
      match lex Idle l with
      | None => Raise (Exn SyntaxError "EOL while scanning string literal")
      | Some [] => parse_lines ls'
      | Some ts =>
          if match l with String c _ => is_blank c | EmptyString => false end
          then Raise (Exn IndentationError "unexpected indent")
          else match parse_line ts with
               | Some (Some stmt) =>
                   match parse_lines ls' with
                   | Ok stmts => Ok (stmt :: stmts)
                   | Raise e => Raise e
                   end
               | Some None => parse_lines ls'
               | None => Raise (Exn SyntaxError "invalid syntax")
               end
      end
  end.

Definition provider : SyntaxTreeProvider :=
  {| ast_parse := λ text,
       if has_null_byte text
       then Raise (Exn TypeError "compile() expected string without null bytes")
       else match parse_lines (lines text) with
            | Ok stmts => Ok (ast_Module stmts)
            | Raise e => Raise e
            end |}.

(** *** A rendering of callees *)

Fixpoint render (callee : node) : string :=
  match callee with
  | ast_Name id => id
  | ast_Attribute value attr => render value +:+ "." +:+ attr
  | ast_Call func _ => render func +:+ "()"
  | ast_Str s => dquote +:+ s +:+ dquote
  | _ => "<expression>"
  end.

(** *** A file system given by a table *)

Inductive fs_node :=
| RegularFile (content : string)
| Unreadable                       (* a regular file that [open] refuses *)
| Directory (entries : list string).

Fixpoint fs_lookup (tbl : list (string * fs_node)) (path : string) : option fs_node :=
  match tbl with
  | [] => None
  | (p, n) :: tbl' => if String.eqb p path then Some n else fs_lookup tbl' path
  end.

Definition table_os (cwd : string) (tbl : list (string * fs_node)) : OS :=
  {| getcwd := cwd;
     isdir := λ p, match fs_lookup tbl p with Some (Directory _) => true | _ => false end;
     isfile := λ p, match fs_lookup tbl p with
                    | Some (RegularFile _) | Some Unreadable => true
                    | _ => false
                    end;
     listdir := λ p, match fs_lookup tbl p with
                     | Some (Directory entries) => Ok entries
                     | Some _ => Raise (Exn OSError "[Errno 20] Not a directory")
                     | None => Raise (Exn OSError "[Errno 2] No such file or directory")
                     end;
     open_read := λ p, match fs_lookup tbl p with
                       | Some (RegularFile content) => Ok content
                       | Some Unreadable => Raise (Exn IOError "[Errno 13] Permission denied")
                       | Some (Directory _) => Raise (Exn IOError "[Errno 21] Is a directory")
                       | None => Raise (Exn IOError "[Errno 2] No such file or directory")
                       end |}.

(** *** A serialiser *)

Fixpoint escape (s : string) : string :=
  match s with
  | EmptyString => EmptyString
  | String c rest =>
      if Ascii.eqb c "034" || Ascii.eqb c "\"
      then String "\" (String c (escape rest))
      else String c (escape rest)
  end.

Fixpoint is_ascii (s : string) : bool :=
  match s with
  | EmptyString => true
  | String c rest => (nat_of_ascii c <? 128)%nat && is_ascii rest
  end.

Fixpoint commas (items : list string) : string :=
  match items with
  | [] => ""
  | [x] => x
  | x :: rest => x +:+ ", " +:+ commas rest
  end.

Definition dump_string (s : string) : string := dquote +:+ escape s +:+ dquote.

Definition dump_list (l : list string) : string :=
  "[" +:+ commas (dump_string <$> l) +:+ "]".

Definition dump_report (r : FileReport) : string :=
  "{" +:+ commas ((λ kv, dump_string kv.1 +:+ ": " +:+ dump_list kv.2)
                    <$> map_to_list r) +:+ "}".

Definition dump_corpus (data : CorpusReport) : string :=
  "{" +:+ commas ((λ kv, dump_string kv.1 +:+ ": " +:+ dump_report kv.2)
                    <$> map_to_list data) +:+ "}".

(** Byte strings that are not ASCII are refused, as [json.dumps] of
    Python 2 refuses the ones that are not UTF-8. *)
Definition dumps (data : CorpusReport) : result string :=
  if forallb (λ kv, is_ascii kv.1
                    && forallb (λ iv, forallb is_ascii iv.2) (map_to_list kv.2))
             (map_to_list data)
  then Ok (dump_corpus data)
  else Raise (Exn UnicodeDecodeError "'utf8' codec can't decode byte").

Definition json : JSON :=
  {| json_dumps := dumps; json_dumps_empty := eq_refl |}.

(** *** Sample inputs *)

(** The file of the end-to-end example. *)
Definition example_text : string :=
  "import os" +:+ newline +:+
  "from json import dumps as to_json" +:+ newline +:+
  "os.path.exists(" +:+ dquote +:+ "x" +:+ dquote +:+ ")" +:+ newline +:+
  "to_json({})" +:+ newline +:+
  "undefined_call()".

(** The tree that [ast.parse] builds for it. *)
Definition example_module : node :=
  ast_Module
    [ ast_Import [Alias "os" None];
      ast_ImportFrom "json" [Alias "dumps" (Some "to_json")];
      ast_Expr (ast_Call
                  (ast_Attribute (ast_Attribute (ast_Name "os") "path") "exists")
                  [ast_Str "x"]);
      ast_Expr (ast_Call (ast_Name "to_json") [ast_Dict [] []]);
      ast_Expr (ast_Call (ast_Name "undefined_call") []) ].

(** A text that is not Python, and one with a null byte. *)
Definition malformed_text : string := "def broken(:".
Definition null_byte_text : string := "import os" +:+ String "000" EmptyString.

(** A project directory with two sources, a file named [.py], a file
    with another extension and a subdirectory with a source. *)
Definition project : list (string * fs_node) :=
  [ ("/proj", Directory ["a.py"; ".py"; "notes.txt"; "sub"; "bad.py"]);
    ("/proj/a.py", RegularFile example_text);
    ("/proj/.py", RegularFile "import sys");
    ("/proj/notes.txt", RegularFile "import csv");
    ("/proj/sub", Directory ["deep.py"]);
    ("/proj/sub/deep.py", RegularFile "import re");
    ("/proj/bad.py", RegularFile malformed_text) ].

(** A directory one of whose sources cannot be read. *)
Definition locked : list (string * fs_node) :=
  [ ("/locked", Directory ["a.py"; "secret.py"; "z.py"]);
    ("/locked/a.py", RegularFile "import os");
    ("/locked/secret.py", Unreadable);
    ("/locked/z.py", RegularFile "import re") ].

(** The two tables as file systems, with [/home/u] for the current
    directory, and the visitor of the spec with the sample rendering. *)
Definition project_os : OS := table_os "/home/u" project.
Definition locked_os : OS := table_os "/home/u" locked.
Definition spec_visitor : visitor_py := Visitor.from_spec render.

(** A run of [main] on a file system, from an empty history. *)
Definition run (os : OS) (argv : list string) : result unit * history :=
  @main os provider spec_visitor json argv [].

(** A visitor whose [visit] raises, whatever the tree. *)
Definition failing_visitor (e : exn) : visitor_py :=
  {| visitor := unit;
     ParserVisitor := ();
     visit := λ _ _, Raise e;
     import_libraries := λ _, [];
     calls := λ _, [] |}.

(** A directory without a source file. *)
Definition docs : list (string * fs_node) :=
  [ ("/docs", Directory ["readme.txt"; "img"; "setup.pyc"]);
    ("/docs/readme.txt", RegularFile "import os");
    ("/docs/img", Directory []);
    ("/docs/setup.pyc", RegularFile "import sys") ].
Definition docs_os : OS := table_os "/home/u" docs.

End Sample.


(** * Properties *)

(** ** [parse_method_call_tokens] *)

Section Parse.
Context {provider : SyntaxTreeProvider} {visitors : visitor_py}.

(** The three ways through the [try] statement. *)
Lemma parse_recovers snippet e :
  ast_parse (py_str snippet) = Raise e → is_SyntaxError e = true →
  parse_method_call_tokens snippet = Ok empty_report.
Proof.
  intros Hraise Hsyn. unfold parse_method_call_tokens.
  by rewrite Hraise, Hsyn.
Qed.

Lemma parse_propagates snippet e :
  is_SyntaxError e = false →
  ast_parse (py_str snippet) = Raise e
  ∨ (∃ tree, ast_parse (py_str snippet) = Ok tree
             ∧ visit ParserVisitor tree = Raise e) →
  parse_method_call_tokens snippet = Raise e.
Proof.
  intros Hother [Hraise | (tree & Htree & Hraise)];
    unfold parse_method_call_tokens.
  - by rewrite Hraise, Hother.
  - by rewrite Htree, Hraise, Hother.
Qed.

Lemma parse_outcome snippet :
  match parse_method_call_tokens snippet with
  | Ok report =>
      ∃ imports calls : list string,
        report = {[ "imports" := imports; "calls" := calls ]}
  | Raise e => is_SyntaxError e = false
  end.
Proof.
  unfold parse_method_call_tokens.
  destruct (ast_parse (py_str snippet)) as [tree | e].
  - destruct (visit ParserVisitor tree) as [v | e]; [by eauto |].
    destruct (is_SyntaxError e) eqn:Hsyn; by eauto.
  - destruct (is_SyntaxError e) eqn:Hsyn; by eauto.
Qed.

Lemma report_keys (imports calls : list string) :
  dom ({[ "imports" := imports; "calls" := calls ]} : FileReport)
  = ({[ "imports"; "calls" ]} : gset string).
Proof. rewrite dom_insert_L, dom_singleton_L. set_solver. Qed.

(** C2, amended. A text that [ast.parse] rejects with a [SyntaxError] or
    one of its subclasses gives the report [{imports: [], calls: []}]:
    the call returns, it does not raise.  A text that [ast.parse] rejects
    with an exception of another class gives no report: that exception
    is raised to the caller. *)
Theorem malformed_source_empty_report snippet e :
  ast_parse (py_str snippet) = Raise e →
  parse_method_call_tokens snippet
  = if is_SyntaxError e then Ok {[ "imports" := []; "calls" := [] ]}
    else Raise e.
Proof. intros Hraise. unfold parse_method_call_tokens. by rewrite Hraise. Qed.

(** C9. Whatever the input, a value returned by
    [parse_method_call_tokens] is a dictionary with exactly the keys
    [imports] and [calls], each bound to a list; when the call does not
    return, it has raised an exception that is not a [SyntaxError]. *)
Theorem report_shape snippet :
  match parse_method_call_tokens snippet with
  | Ok report =>
      dom report = ({[ "imports"; "calls" ]} : gset string)
      ∧ ∃ imports calls : list string,
          report !! "imports" = Some imports ∧ report !! "calls" = Some calls
  | Raise e => is_SyntaxError e = false
  end.
Proof.
  pose proof (parse_outcome snippet) as Hshape.
  destruct (parse_method_call_tokens snippet) as [report | e]; [| done].
  destruct Hshape as (imports & calls & ->). split.
  - apply report_keys.
  - exists imports, calls. by simplify_map_eq.
Qed.

(** C10. Only [SyntaxError] is recovered: an exception of any other
    class raised by [ast.parse], or by the visit of the tree, leaves
    [parse_method_call_tokens] as it is, and no report is returned. *)
Theorem other_exceptions_propagate snippet e :
  is_SyntaxError e = false →
  ast_parse (py_str snippet) = Raise e
  ∨ (∃ tree, ast_parse (py_str snippet) = Ok tree
             ∧ visit ParserVisitor tree = Raise e) →
  parse_method_call_tokens snippet = Raise e.
Proof. apply parse_propagates. Qed.

End Parse.

Lemma malformed_source_empty_report_witness :
  @ast_parse Sample.provider (py_str Sample.malformed_text)
  = Raise (Exn SyntaxError "invalid syntax")
  ∧ @parse_method_call_tokens Sample.provider Sample.spec_visitor
      Sample.malformed_text
    = Ok {[ "imports" := []; "calls" := [] ]}.
Proof.
  split; [reflexivity |].
  apply (@malformed_source_empty_report Sample.provider
           Sample.spec_visitor Sample.malformed_text
           (Exn SyntaxError "invalid syntax")).
  reflexivity.
Defined.

(** C2, as stated, fails: [ast.parse] rejects a text with a null byte,
    with a [TypeError], and the call raises it instead of returning the
    empty report. *)
Lemma rejected_text_may_raise :
  @ast_parse Sample.provider (py_str Sample.null_byte_text)
  = Raise (Exn TypeError "compile() expected string without null bytes")
  ∧ @parse_method_call_tokens Sample.provider Sample.spec_visitor
      Sample.null_byte_text
    = Raise (Exn TypeError "compile() expected string without null bytes")
  ∧ ¬ (∀ snippet e,
         @ast_parse Sample.provider (py_str snippet) = Raise e →
         @parse_method_call_tokens Sample.provider Sample.spec_visitor snippet
         = Ok {[ "imports" := []; "calls" := [] ]}).
Proof.
  split_and!; [reflexivity | reflexivity |].
  intros Hall.
  specialize (Hall Sample.null_byte_text
                (Exn TypeError "compile() expected string without null bytes")
                eq_refl).
  discriminate Hall.
Qed.

Lemma other_exceptions_propagate_witness :
  is_SyntaxError (Exn TypeError "compile() expected string without null bytes")
  = false
  ∧ @ast_parse Sample.provider (py_str Sample.null_byte_text)
    = Raise (Exn TypeError "compile() expected string without null bytes")
  ∧ @parse_method_call_tokens Sample.provider Sample.spec_visitor
      Sample.null_byte_text
    = Raise (Exn TypeError "compile() expected string without null bytes").
Proof.
  split_and!; [reflexivity | vm_compute; reflexivity |].
  apply (@other_exceptions_propagate Sample.provider Sample.spec_visitor).
  - reflexivity.
  - left. vm_compute. reflexivity.
Defined.

(** C1. The end-to-end example: for the five-line file, whose tree is
    [example_module], the report has [imports = ["os", "json"]] and
    [calls = ["os", "json", "undefined_call"]], in this order. *)
Theorem end_to_end_example (P : SyntaxTreeProvider) (render : node → string) :
  @ast_parse P (py_str Sample.example_text) = Ok Sample.example_module →
  @parse_method_call_tokens P (Visitor.from_spec render) Sample.example_text
  = Ok {[ "imports" := ["os"; "json"];
          "calls" := ["os"; "json"; "undefined_call"] ]}.
Proof.
  intros Htree. unfold parse_method_call_tokens. rewrite Htree.
  vm_compute. reflexivity.
Qed.

Lemma end_to_end_example_witness :
  @ast_parse Sample.provider (py_str Sample.example_text)
  = Ok Sample.example_module
  ∧ @parse_method_call_tokens Sample.provider Sample.spec_visitor
      Sample.example_text
    = Ok {[ "imports" := ["os"; "json"];
            "calls" := ["os"; "json"; "undefined_call"] ]}.
Proof.
  split.
  - vm_compute. reflexivity.
  - apply (end_to_end_example Sample.provider Sample.render).
    vm_compute. reflexivity.
Defined.

(** ** Paths *)

Lemma isabs_cons s : isabs s = true → ∃ rest, s = String "/" rest.
Proof.
  unfold isabs. destruct s as [| c rest]; cbn [startswith]; [done |].
  destruct (Ascii.eqb_spec "/" c) as [<- |]; [by eauto | done].
Qed.

Lemma isabs_normpath path : isabs path = true → isabs (normpath path) = true.
Proof.
  intros [rest ->]%isabs_cons. unfold normpath.
  change (String.eqb (String "/" rest) "") with false. cbv iota.
  change (startswith "/" (String "/" rest)) with true. cbv iota.
  by destruct (startswith "//" (String "/" rest)
               && negb (startswith "///" (String "/" rest))).
Qed.

Lemma isabs_join a b : isabs a = true → isabs (join a b) = true.
Proof.
  intros [rest ->]%isabs_cons. unfold join.
  destruct (startswith "/" b) eqn:Hb; [done |].
  by destruct (String.eqb (String "/" rest) "" || endswith "/" (String "/" rest)).
Qed.

Lemma isabs_abspath `{OS} path : isabs getcwd = true → isabs (abspath path) = true.
Proof.
  intros Hcwd. unfold abspath. apply isabs_normpath.
  destruct (isabs path) eqn:Hpath; [done | by apply isabs_join].
Qed.

Lemma substring_all s : String.substring 0 (String.length s) s = s.
Proof. induction s as [| c s IH]; [done |]. cbn. by rewrite IH. Qed.

Lemma endswith_refl s : endswith s s = true.
Proof. destruct s; cbn [endswith]; by rewrite String.eqb_refl. Qed.

Lemma endswith_substring s n :
  endswith (String.substring n (String.length s - n) s) s = true.
Proof.
  revert n. induction s as [| c s IH]; intros n.
  - by destruct n.
  - destruct n as [| n].
    + rewrite Nat.sub_0_r, substring_all. apply endswith_refl.
    + cbn [String.length Nat.sub String.substring endswith].
      rewrite IH. by destruct (String.eqb _ _).
Qed.

(** An extension, when there is one, is a suffix of the path. *)
Lemma splitext_suffix p : (splitext p).2 ≠ "" → endswith (splitext p).2 p = true.
Proof.
  unfold splitext. destruct (rfind "/" p <? rfind "." p); [| done].
  destruct (has_non_dot _ _ _); [| done].
  intros _. apply endswith_substring.
Qed.

(** ** Histories *)

Lemma stdout_app σ1 σ2 : stdout (σ1 ++ σ2) = stdout σ1 ++ stdout σ2.
Proof. unfold stdout. apply omap_app. Qed.

Lemma opened_app σ1 σ2 : opened (σ1 ++ σ2) = opened σ1 ++ opened σ2.
Proof. unfold opened. apply omap_app. Qed.

Lemma stdout_opens (paths : list string) : stdout (Open <$> paths) = [].
Proof. induction paths as [| p paths IH]; [done | apply IH]. Qed.

(** ** [parse_file] and the loop of [main] *)

Section Files.
Context {os : OS} {provider : SyntaxTreeProvider} {visitors : visitor_py}.

(** [parse_file] opens the file, whatever comes of it, and prints
    nothing; the exception of an unreadable file is not caught. *)
Lemma parse_file_run filename σ :
  parse_file filename σ
  = (match open_read (abspath filename) with
     | Ok text => parse_method_call_tokens text
     | Raise e => Raise e
     end,
     σ ++ [Open (abspath filename)]).
Proof.
  unfold parse_file, mbind, M_bind, py_open_read, lift.
  by destruct (open_read (abspath filename)).
Qed.

(** The test of the loop body selects the entries of [source_files]. *)
Lemma loop_test filename :
  isfile filename && String.eqb (splitext filename).2 ".py" = true
  ↔ isfile filename = true ∧ (splitext filename).2 = ".py".
Proof. by rewrite andb_true_iff, String.eqb_eq. Qed.

Lemma loop_skip pathname entry entries data :
  ¬ (isfile (join pathname entry) = true
     ∧ (splitext (join pathname entry)).2 = ".py") →
  main_listdir_loop pathname (entry :: entries) data
  = main_listdir_loop pathname entries data.
Proof.
  intros Hno%(not_iff_compat (loop_test _)). cbn [main_listdir_loop].
  destruct (splitext (join pathname entry)) as [fname fext].
  cbn [snd] in Hno.
  by destruct (isfile (join pathname entry) && String.eqb fext ".py").
Qed.

Lemma loop_take pathname entry entries data :
  isfile (join pathname entry) = true
  ∧ (splitext (join pathname entry)).2 = ".py" →
  main_listdir_loop pathname (entry :: entries) data
  = (report ← parse_file (join pathname entry);
     main_listdir_loop pathname entries (<[join pathname entry := report]> data)).
Proof.
  intros Hyes%loop_test. cbn [main_listdir_loop].
  destruct (splitext (join pathname entry)) as [fname fext].
  cbn [snd] in Hyes. by rewrite Hyes.
Qed.

Lemma source_files_cons pathname entry entries :
  source_files pathname (entry :: entries)
  = if decide (isfile (join pathname entry) = true
               ∧ (splitext (join pathname entry)).2 = ".py")
    then join pathname entry :: source_files pathname entries
    else source_files pathname entries.
Proof. unfold source_files. by rewrite fmap_cons, filter_cons. Qed.

(** The source files are the direct children that pass the test. *)
Lemma elem_of_source_files pathname entries filename :
  filename ∈ source_files pathname entries
  ↔ ∃ entry, entry ∈ entries ∧ filename = join pathname entry
             ∧ isfile filename = true ∧ (splitext filename).2 = ".py".
Proof.
  unfold source_files. rewrite list_elem_of_filter, list_elem_of_fmap.
  naive_solver.
Qed.

(** The loop prints nothing. *)
Lemma loop_stdout pathname entries data σ :
  stdout (main_listdir_loop pathname entries data σ).2 = stdout σ.
Proof.
  revert data σ. induction entries as [| entry entries IH]; intros data σ.
  - done.
  - destruct (decide (isfile (join pathname entry) = true
                      ∧ (splitext (join pathname entry)).2 = ".py"))
      as [Hyes | Hno].
    + rewrite (loop_take _ _ _ _ Hyes). unfold mbind, M_bind.
      rewrite parse_file_run.
      destruct (match open_read _ with Ok _ => _ | Raise _ => _ end).
      * rewrite IH, stdout_app. apply app_nil_r.
      * cbn [snd]. rewrite stdout_app. apply app_nil_r.
    + rewrite (loop_skip _ _ _ _ Hno). apply IH.
Qed.

(** A loop that runs to its end has read every source file, in listing
    order, and maps each to the report of its text. *)
Lemma loop_ok_inv pathname entries data σ data' σ' :
  main_listdir_loop pathname entries data σ = (Ok data', σ') →
  σ' = σ ++ (Open <$> (abspath <$> source_files pathname entries))
  ∧ dom data' = dom data ∪ list_to_set (source_files pathname entries)
  ∧ (∀ filename, filename ∈ source_files pathname entries →
       ∃ text report,
         open_read (abspath filename) = Ok text
         ∧ parse_method_call_tokens text = Ok report
         ∧ data' !! filename = Some report)
  ∧ (∀ filename, filename ∉ source_files pathname entries →
       data' !! filename = data !! filename).
Proof.
  revert data σ. induction entries as [| entry entries IH]; intros data σ.
  - intros [= <- <-]. cbn. rewrite app_nil_r.
    split_and!; [done | set_solver | | done].
    intros filename Hin. by apply elem_of_nil in Hin.
  - rewrite source_files_cons. case_decide as Htest.
    + rewrite (loop_take _ _ _ _ Htest). unfold mbind, M_bind.
      rewrite parse_file_run.
      destruct (open_read (abspath (join pathname entry)))
        as [text |] eqn:Hread; [| done].
      destruct (parse_method_call_tokens text) as [report |] eqn:Hparse;
        [| done].
      intros (-> & Hdom & Hin & Hout)%IH. split_and!.
      * by rewrite !fmap_cons, <- app_assoc.
      * rewrite Hdom, dom_insert_L. set_solver.
      * intros filename
          [-> | Hrest]%elem_of_cons; [| by apply Hin].
        destruct (decide (join pathname entry ∈ source_files pathname entries))
          as [Hdup | Hfresh].
        -- by apply Hin.
        -- exists text, report. split_and!; [done | done |].
           by rewrite (Hout _ Hfresh), lookup_insert_eq.
      * intros filename [Hne Hrest]%not_elem_of_cons.
        by rewrite (Hout _ Hrest), lookup_insert_ne.
    + rewrite (loop_skip _ _ _ _ Htest). apply IH.
Qed.

(** Conversely, the loop runs to its end when every source file can be
    read and analysed. *)
Lemma loop_complete pathname entries data σ :
  (∀ filename, filename ∈ source_files pathname entries →
     ∃ text report, open_read (abspath filename) = Ok text
                    ∧ parse_method_call_tokens text = Ok report) →
  ∃ data', main_listdir_loop pathname entries data σ
           = (Ok data',
              σ ++ (Open <$> (abspath <$> source_files pathname entries))).
Proof.
  revert data σ. induction entries as [| entry entries IH]; intros data σ.
  - intros _. exists data. cbn. by rewrite app_nil_r.
  - rewrite source_files_cons. case_decide as Htest; intros Hall.
    + destruct (Hall (join pathname entry)) as (text & report & Hread & Hparse);
        [by left |].
      rewrite (loop_take _ _ _ _ Htest). unfold mbind, M_bind.
      rewrite parse_file_run, Hread, Hparse.
      destruct (IH (<[join pathname entry := report]> data)
                   (σ ++ [Open (abspath (join pathname entry))]))
        as [data' ->]; [intros ??; apply Hall; by right |].
      exists data'. by rewrite !fmap_cons, <- app_assoc.
    + rewrite (loop_skip _ _ _ _ Htest). by apply IH.
Qed.

(** Whatever its outcome, the loop opens source files only. *)
Lemma loop_opened pathname entries data σ path :
  path ∈ opened (main_listdir_loop pathname entries data σ).2 →
  path ∈ opened σ
  ∨ ∃ filename, filename ∈ source_files pathname entries
                ∧ path = abspath filename.
Proof.
  revert data σ. induction entries as [| entry entries IH]; intros data σ.
  - by left.
  - rewrite source_files_cons. case_decide as Htest.
    + rewrite (loop_take _ _ _ _ Htest). unfold mbind, M_bind.
      rewrite parse_file_run.
      assert (path ∈ opened (σ ++ [Open (abspath (join pathname entry))]) →
              path ∈ opened σ
              ∨ ∃ filename,
                  filename ∈ join pathname entry :: source_files pathname entries
                  ∧ path = abspath filename) as Hstep.
      { rewrite opened_app, elem_of_app. intros [? | Hhere]; [by left |].
        right. exists (join pathname entry). split; [by left |].
        by apply list_elem_of_singleton in Hhere. }
      destruct (match open_read _ with Ok _ => _ | Raise _ => _ end);
        [| exact Hstep].
      intros [Hbefore | (filename & Hin & ->)]%IH; [by apply Hstep |].
      right. exists filename. split; [by right | done].
    + rewrite (loop_skip _ _ _ _ Htest). apply IH.
Qed.

(** The loop stops at the first source file that cannot be read or
    analysed, with the exception raised there. *)
Lemma loop_first_failure pathname entries data σ before failing after e :
  source_files pathname entries = before ++ failing :: after →
  (∀ filename, filename ∈ before →
     ∃ text report, open_read (abspath filename) = Ok text
                    ∧ parse_method_call_tokens text = Ok report) →
  open_read (abspath failing) = Raise e
  ∨ (∃ text, open_read (abspath failing) = Ok text
             ∧ parse_method_call_tokens text = Raise e) →
  main_listdir_loop pathname entries data σ
  = (Raise e, σ ++ (Open <$> (abspath <$> before ++ [failing]))).
Proof.
  revert data σ before.
  induction entries as [| entry entries IH]; intros data σ before.
  - intros Hsplit. by destruct before.
  - rewrite source_files_cons. case_decide as Htest.
    + intros Hsplit Hbefore Hfails.
      rewrite (loop_take _ _ _ _ Htest). unfold mbind, M_bind.
      rewrite parse_file_run.
      destruct before as [| b before]; injection Hsplit as Hhead Htail.
      * rewrite Hhead.
        destruct Hfails as [-> | (text & -> & ->)]; done.
      * rewrite Hhead.
        destruct (Hbefore b) as (text & report & -> & ->); [by left |].
        rewrite (IH _ _ before Htail); [| intros ??; apply Hbefore; by right | done].
        by rewrite <- app_comm_cons, !fmap_cons, <- app_assoc.
    + rewrite (loop_skip _ _ _ _ Htest). apply IH.
Qed.

End Files.

(** ** [main] *)

Section Main.
Context {os : OS} {provider : SyntaxTreeProvider} {visitors : visitor_py}
        {serialiser : JSON}.

(** [main] once the arguments are parsed: collect, serialise, print. *)
Lemma main_run argv arg0 rest σ :
  getopt argv = Ok (arg0 :: rest) →
  main argv σ
  = match main_collect (abspath arg0) σ with
    | (Ok data, σ') =>
        match json_dumps data with
        | Ok text => (Ok (), σ' ++ [Print text])
        | Raise e => (Raise e, σ')
        end
    | (Raise e, σ') => (Raise e, σ')
    end.
Proof.
  intros Hargs. unfold main, mbind, M_bind, lift, py_print. rewrite Hargs.
  destruct (main_collect (abspath arg0) σ) as [[data | e] σ']; [| done].
  by destruct (json_dumps data).
Qed.

Lemma main_usage argv σ : getopt argv = Ok [] → main argv σ = (Raise usage, σ).
Proof. intros Hargs. unfold main, mbind, M_bind, lift. by rewrite Hargs. Qed.

(** The three branches of the collection. *)
Lemma collect_directory pathname entries σ :
  isdir pathname = true → listdir pathname = Ok entries →
  main_collect pathname σ = main_listdir_loop pathname entries ∅ σ.
Proof.
  intros Hdir Hls. unfold main_collect, mbind, M_bind, lift.
  by rewrite Hdir, Hls.
Qed.

Lemma collect_file pathname σ :
  isdir pathname = false → isfile pathname = true →
  main_collect pathname σ
  = (match open_read (abspath pathname) with
     | Ok text =>
         match parse_method_call_tokens text with
         | Ok report => Ok {[ pathname := report ]}
         | Raise e => Raise e
         end
     | Raise e => Raise e
     end,
     σ ++ [Open (abspath pathname)]).
Proof.
  intros Hdir Hfile. unfold main_collect, mbind, M_bind.
  rewrite Hdir, Hfile, parse_file_run.
  destruct (open_read (abspath pathname)) as [text |]; [| done].
  by destruct (parse_method_call_tokens text).
Qed.

Lemma collect_neither pathname σ :
  isdir pathname = false → isfile pathname = false →
  main_collect pathname σ
  = (Ok ∅, σ ++ [Print (pathname +:+ " is not a directory or file.")]).
Proof.
  intros Hdir Hfile. unfold main_collect, mbind, M_bind, py_print.
  by rewrite Hdir, Hfile.
Qed.

(** A collection that succeeds: the files it has read, the lines it has
    printed, and the dictionary it returns. *)
Lemma collect_ok_inv pathname σ data σ' :
  main_collect pathname σ = (Ok data, σ') →
  ∃ files,
    σ' = σ ++ (Open <$> (abspath <$> files))
           ++ (Print <$> (if isdir pathname || isfile pathname then []
                          else [pathname +:+ " is not a directory or file."]))
    ∧ dom data = list_to_set files
    ∧ (∀ filename, filename ∈ files →
         filename = pathname
         ∨ ∃ entry, filename = join pathname entry ∧ isdir pathname = true)
    ∧ (∀ filename report, data !! filename = Some report →
         ∃ text, open_read (abspath filename) = Ok text
                 ∧ parse_method_call_tokens text = Ok report).
Proof.
  destruct (isdir pathname) eqn:Hdir; [| destruct (isfile pathname) eqn:Hfile].
  - unfold main_collect, mbind, M_bind, lift. rewrite Hdir.
    destruct (listdir pathname) as [entries |]; [| done].
    intros (-> & Hdom & Hin & Hout)%loop_ok_inv.
    exists (source_files pathname entries). cbn. rewrite ?app_nil_r.
    split_and!; [done | set_solver | |].
    + intros filename (entry & _ & -> & _)%elem_of_source_files. eauto.
    + intros filename report Hlook.
      destruct (decide (filename ∈ source_files pathname entries))
        as [Hyes | Hno].
      * destruct (Hin _ Hyes) as (text & report' & ? & ? & ?).
        exists text. split; congruence.
      * by rewrite (Hout _ Hno) in Hlook.
  - rewrite collect_file by done.
    destruct (open_read (abspath pathname)) as [text |] eqn:Hread; [| done].
    destruct (parse_method_call_tokens text) as [report |] eqn:Hparse;
      [| done].
    intros [= <- <-]. exists [pathname]. cbn. rewrite ?app_nil_r.
    split_and!; [done | rewrite dom_singleton_L; set_solver | |].
    + intros filename ->%list_elem_of_singleton. by left.
    + intros filename report' [<- <-]%lookup_singleton_Some. eauto.
  - rewrite collect_neither by done. intros [= <- <-]. exists []. cbn.
    split_and!; [done | set_solver | |].
    + intros filename Hin. by apply elem_of_nil in Hin.
    + intros filename report Hlook. by rewrite lookup_empty in Hlook.
Qed.

(** C7. When the path is neither a directory nor a file, [main] prints a
    diagnostic, leaves the dictionary empty, and goes on to print the
    serialised dictionary, [{}]: the run completes. *)
Theorem neither_file_nor_directory argv arg0 rest σ :
  getopt argv = Ok (arg0 :: rest) →
  isdir (abspath arg0) = false → isfile (abspath arg0) = false →
  (main_collect (abspath arg0) σ).1 = Ok ∅
  ∧ main argv σ
    = (Ok (), σ ++ [Print (abspath arg0 +:+ " is not a directory or file.");
                    Print "{}"]).
Proof.
  intros Hargs Hdir Hfile. rewrite (main_run _ _ _ _ Hargs).
  rewrite collect_neither by done. split; [done |].
  by rewrite json_dumps_empty, <- app_assoc.
Qed.

(** C4, amended. With no positional argument, [main] raises the usage
    error before it opens a file or prints a line.  It is not the only
    fatal error: a file given as the path that cannot be read ends the
    run with the exception of [open], and an option ends it with the
    exception of [getopt], both before any output. *)
Theorem usage_error argv σ :
  (getopt argv = Ok [] → main argv σ = (Raise usage, σ))
  ∧ (∀ arg0 rest e,
       getopt argv = Ok (arg0 :: rest) →
       isdir (abspath arg0) = false → isfile (abspath arg0) = true →
       open_read (abspath (abspath arg0)) = Raise e →
       main argv σ = (Raise e, σ ++ [Open (abspath (abspath arg0))]))
  ∧ (∀ e, getopt argv = Raise e → main argv σ = (Raise e, σ)).
Proof.
  split_and!; [apply main_usage | |].
  - intros arg0 rest e Hargs Hdir Hfile Hread.
    rewrite (main_run _ _ _ _ Hargs), collect_file by done.
    by rewrite Hread.
  - intros e Hargs. unfold main, mbind, M_bind, lift. by rewrite Hargs.
Qed.

(** C3, amended. In a run over a directory, a source file whose text is
    malformed ([SyntaxError]) is contained: when the source files can
    all be read and nothing but [SyntaxError] is raised on their texts,
    every one of them is read and reported, the malformed ones with the
    empty report.  A source file that cannot be read, or whose text
    raises another exception, is not contained: the run ends with an
    exception and prints nothing; it ends at the first such file, with
    the exception raised there, and the source files listed after it are
    never opened. *)
Theorem per_file_failures argv arg0 rest entries σ :
  getopt argv = Ok (arg0 :: rest) →
  isdir (abspath arg0) = true → listdir (abspath arg0) = Ok entries →
  let files := source_files (abspath arg0) entries in
  ((∀ filename, filename ∈ files →
      ∃ text, open_read (abspath filename) = Ok text
              ∧ ∀ e, parse_method_call_tokens text ≠ Raise e) →
   ∃ data,
     main argv σ
     = match json_dumps data with
       | Ok out => (Ok (), σ ++ (Open <$> (abspath <$> files)) ++ [Print out])
       | Raise e => (Raise e, σ ++ (Open <$> (abspath <$> files)))
       end
     ∧ dom data = list_to_set files
     ∧ ∀ filename text e,
         filename ∈ files → open_read (abspath filename) = Ok text →
         ast_parse (py_str text) = Raise e → is_SyntaxError e = true →
         data !! filename = Some empty_report)
  ∧ (∀ filename,
       filename ∈ files →
       (∃ e, open_read (abspath filename) = Raise e)
       ∨ (∃ text e, open_read (abspath filename) = Ok text
                    ∧ parse_method_call_tokens text = Raise e) →
       ∃ e' σ', main argv σ = (Raise e', σ') ∧ stdout σ' = stdout σ)
  ∧ (∀ before failing after e,
       files = before ++ failing :: after →
       (∀ filename, filename ∈ before →
          ∃ text report, open_read (abspath filename) = Ok text
                         ∧ parse_method_call_tokens text = Ok report) →
       open_read (abspath failing) = Raise e
       ∨ (∃ text, open_read (abspath failing) = Ok text
                  ∧ parse_method_call_tokens text = Raise e) →
       main argv σ
       = (Raise e, σ ++ (Open <$> (abspath <$> before ++ [failing])))).
Proof.
  intros Hargs Hdir Hls files.
  rewrite (main_run _ _ _ _ Hargs), (collect_directory _ _ _ Hdir Hls).
  split_and!.
  - intros Hall.
    destruct (loop_complete (abspath arg0) entries ∅ σ) as [data Hloop].
    { intros filename (text & Hread & Hparse)%Hall. exists text.
      destruct (parse_method_call_tokens text) as [report | e] eqn:Hrep;
        [by eauto | by destruct (Hparse e)]. }
    exists data. rewrite Hloop.
    apply loop_ok_inv in Hloop as (_ & Hdom & Hin & _). split_and!.
    + destruct (json_dumps data); [by rewrite <- app_assoc | done].
    + rewrite Hdom. set_solver.
    + intros filename text e (text' & report & Hread' & Hrep & ->)%Hin
        Hread Hraise Hsyn.
      rewrite Hread in Hread'. injection Hread' as <-.
      rewrite (parse_recovers _ _ Hraise Hsyn) in Hrep. congruence.
  - intros filename Hin Hfails.
    pose proof (loop_stdout (abspath arg0) entries ∅ σ) as Hout.
    destruct (main_listdir_loop (abspath arg0) entries ∅ σ)
      as [[data | e'] σ'] eqn:Hloop.
    + apply loop_ok_inv in Hloop as (_ & _ & Hread & _).
      destruct (Hread _ Hin) as (text & report & Hopen & Hrep & _).
      destruct Hfails as [[e He] | (text' & e & Hopen' & He)]; congruence.
    + by exists e', σ'.
  - intros before failing after e Hsplit Hbefore Hfails.
    by rewrite (loop_first_failure _ _ _ _ _ _ _ _ Hsplit Hbefore Hfails).
Qed.

(** C5, amended. When the path is a directory, the input files of [main]
    are direct children only: whatever the outcome, each file it opens is
    an entry of the listing, joined to the path, that is a regular file
    and whose extension, as [os.path.splitext] computes it, is [.py]; a
    run that completes has opened every such entry, in listing order, and
    reports on exactly these.  Such a path ends in [.py]; a name whose
    dots are all leading, as [.py] itself, has no extension. *)
Theorem directory_inputs argv arg0 rest entries :
  getopt argv = Ok (arg0 :: rest) →
  isdir (abspath arg0) = true → listdir (abspath arg0) = Ok entries →
  let pathname := abspath arg0 in
  let is_input filename :=
    ∃ entry, entry ∈ entries ∧ filename = join pathname entry
             ∧ isfile filename = true ∧ (splitext filename).2 = ".py" in
  (∀ filename, is_input filename → endswith ".py" filename = true)
  ∧ (∀ σ path, path ∈ opened (main argv σ).2 →
       path ∈ opened σ ∨ ∃ filename, is_input filename ∧ path = abspath filename)
  ∧ (∀ σ σ', main argv σ = (Ok (), σ') →
       ∃ data text,
         json_dumps data = Ok text
         ∧ σ' = σ ++ (Open <$> (abspath <$> source_files pathname entries))
                  ++ [Print text]
         ∧ ∀ filename, filename ∈ dom data ↔ is_input filename).
Proof.
  intros Hargs Hdir Hls pathname is_input. split_and!.
  - intros filename (entry & _ & _ & _ & Hext).
    rewrite <- Hext. apply splitext_suffix. by rewrite Hext.
  - intros σ path.
    rewrite (main_run _ _ _ _ Hargs), (collect_directory _ _ _ Hdir Hls).
    pose proof (loop_opened (abspath arg0) entries ∅ σ path) as Hloop.
    destruct (main_listdir_loop (abspath arg0) entries ∅ σ)
      as [[data | e] σ1]; cbn [snd] in Hloop.
    + destruct (json_dumps data) as [text | e]; cbn [snd].
      * rewrite opened_app. cbn. rewrite app_nil_r. intros Hin.
        destruct (Hloop Hin) as [? | (filename & Hsrc & ->)]; [by left |].
        right. exists filename. split; [| done].
        by apply elem_of_source_files.
      * intros Hin.
        destruct (Hloop Hin) as [? | (filename & Hsrc & ->)]; [by left |].
        right. exists filename. split; [| done].
        by apply elem_of_source_files.
    + intros Hin.
      destruct (Hloop Hin) as [? | (filename & Hsrc & ->)]; [by left |].
      right. exists filename. split; [| done].
      by apply elem_of_source_files.
  - intros σ σ'.
    rewrite (main_run _ _ _ _ Hargs), (collect_directory _ _ _ Hdir Hls).
    destruct (main_listdir_loop (abspath arg0) entries ∅ σ)
      as [[data | e] σ1] eqn:Hloop; [| done].
    destruct (json_dumps data) as [text | e] eqn:Hdumps; [| done].
    intros [= <-]. exists data, text.
    apply loop_ok_inv in Hloop as (-> & Hdom & _ & _).
    split_and!; [done | by rewrite <- app_assoc |].
    intros filename. rewrite Hdom, dom_empty_L, elem_of_union.
    rewrite elem_of_list_to_set, elem_of_source_files. set_solver.
Qed.

(** C6, amended. A run of [main] that completes prints the serialised
    dictionary once, as its last line and after the last file is read;
    it is the only line when the path is a directory or a file, and it
    follows the diagnostic when the path is neither.  The dictionary
    maps the files read, by absolute path, to objects with exactly the
    keys [imports] and [calls], each a list of strings. *)
Theorem output_format argv σ' :
  isabs getcwd = true → main argv [] = (Ok (), σ') →
  ∃ arg0 rest files data text,
    getopt argv = Ok (arg0 :: rest) ∧ json_dumps data = Ok text
    ∧ σ' = (Open <$> (abspath <$> files))
             ++ (Print <$>
                   (if isdir (abspath arg0) || isfile (abspath arg0)
                    then [text]
                    else [abspath arg0 +:+ " is not a directory or file."; text]))
    ∧ dom data = list_to_set files
    ∧ ∀ filename report,
        data !! filename = Some report →
        isabs filename = true
        ∧ ∃ imports calls : list string,
            report = {[ "imports" := imports; "calls" := calls ]}.
Proof.
  intros Hcwd.
  destruct (getopt argv) as [[| arg0 rest] | e] eqn:Hargs.
  - by rewrite (main_usage _ _ Hargs).
  - rewrite (main_run _ _ _ _ Hargs).
    destruct (main_collect (abspath arg0) []) as [[data | e] σ1] eqn:Hcollect;
      [| done].
    destruct (json_dumps data) as [text | e] eqn:Hdumps; [| done].
    intros [= <-]. exists arg0, rest.
    apply collect_ok_inv in Hcollect as (files & -> & Hdom & Hfiles & Hreports).
    exists files, data, text. split_and!; [done | done | | done |].
    + rewrite app_nil_l, <- app_assoc. f_equal.
      by destruct (isdir (abspath arg0) || isfile (abspath arg0)).
    + intros filename report Hlook. split.
      * assert (filename ∈ files) as Hin.
        { apply (elem_of_list_to_set (C := gset string)). rewrite <- Hdom.
          apply elem_of_dom. by eexists. }
        destruct (Hfiles _ Hin) as [-> | (entry & -> & _)].
        -- by apply isabs_abspath.
        -- by apply isabs_join, isabs_abspath.
      * destruct (Hreports _ _ Hlook) as (text' & _ & Hparse).
        pose proof (parse_outcome text') as Hshape.
        by rewrite Hparse in Hshape.
  - unfold main, mbind, M_bind, lift. by rewrite Hargs.
Qed.

End Main.

Section Determinism.
Context {provider : SyntaxTreeProvider}.
Variable render : node → string.

(** On the store, the visitor of the spec computes what the traversal
    computes from the fresh state: earlier instances play no part. *)
Lemma store_parse_run snippet s :
  Store.parse_method_call_tokens (Store.per_instance render) snippet s
  = match ast_parse (py_str snippet) with
    | Raise e =>
        (if is_SyntaxError e then Ok {[ "imports" := []; "calls" := [] ]}
         else Raise e, s)
    | Ok tree =>
        (Ok {[ "imports" := Visitor.libraries (Visitor.walk render tree Visitor.fresh);
               "calls" := Visitor.call_sites (Visitor.walk render tree Visitor.fresh) ]},
         {| Store.class_attributes := Store.class_attributes s;
            Store.instances :=
              <[fresh (dom (Store.instances s))
                := Visitor.walk render tree Visitor.fresh]> (Store.instances s) |})
    end.
Proof.
  unfold Store.parse_method_call_tokens.
  destruct (ast_parse (py_str snippet)) as [tree | e]; [| done].
  cbn. rewrite !lookup_insert_eq. cbn. rewrite lookup_insert_eq.
  by rewrite insert_insert_eq.
Qed.

(** C8. Parsing is deterministic.  The visitor is an object in the store
    of the interpreter, which outlives a call; with the visitor of the
    spec, whose table and sequences belong to the instance, the report
    of a text is the same from every store, so the same again on a
    second call, whatever was parsed before; a call leaves the instances
    and the class attributes it finds untouched; and the report is the
    one the traversal computes from the tree and the fresh state. *)
Theorem parsing_is_deterministic :
  let V := Store.per_instance render in
  (∀ snippet s s',
     (Store.parse_method_call_tokens V snippet s).1
     = (Store.parse_method_call_tokens V snippet s').1)
  ∧ (∀ snippet other s,
       let s1 := (Store.parse_method_call_tokens V other s).2 in
       let s2 := (Store.parse_method_call_tokens V snippet s1).2 in
       (Store.parse_method_call_tokens V snippet s2).1
       = (Store.parse_method_call_tokens V snippet s1).1)
  ∧ (∀ snippet s address,
       address ∈ dom (Store.instances s) →
       Store.instances (Store.parse_method_call_tokens V snippet s).2 !! address
       = Store.instances s !! address)
  ∧ (∀ snippet s,
       Store.class_attributes (Store.parse_method_call_tokens V snippet s).2
       = Store.class_attributes s)
  ∧ (∀ snippet s,
       (Store.parse_method_call_tokens V snippet s).1
       = @parse_method_call_tokens provider (Visitor.from_spec render) snippet).
Proof.
  intros V. unfold V. split_and!.
  - intros snippet s s'. rewrite !store_parse_run.
    by destruct (ast_parse (py_str snippet)).
  - intros snippet other s. cbv zeta. rewrite !store_parse_run.
    by destruct (ast_parse (py_str snippet)).
  - intros snippet s address Hin. rewrite store_parse_run.
    destruct (ast_parse (py_str snippet)) as [tree | e]; [| done].
    cbn. apply lookup_insert_ne. intros <-.
    by apply (is_fresh (dom (Store.instances s))).
  - intros snippet s. rewrite store_parse_run.
    by destruct (ast_parse (py_str snippet)).
  - intros snippet. intros s. rewrite store_parse_run.
    unfold parse_method_call_tokens.
    by destruct (ast_parse (py_str snippet)).
Qed.

End Determinism.

(** ** The properties on the sample inputs *)

Lemma neither_file_nor_directory_witness :
  getopt ["/nowhere"] = Ok ["/nowhere"]
  ∧ @isdir Sample.project_os (@abspath Sample.project_os "/nowhere") = false
  ∧ @isfile Sample.project_os (@abspath Sample.project_os "/nowhere") = false
  ∧ Sample.run Sample.project_os ["/nowhere"]
    = (Ok (), [Print "/nowhere is not a directory or file."; Print "{}"]).
Proof.
  split_and!; [reflexivity | vm_compute; reflexivity | vm_compute; reflexivity |].
  apply (@neither_file_nor_directory Sample.project_os Sample.provider
           Sample.spec_visitor Sample.json ["/nowhere"] "/nowhere" [] []).
  - reflexivity.
  - vm_compute. reflexivity.
  - vm_compute. reflexivity.
Defined.

Lemma usage_error_witness :
  getopt [] = Ok []
  ∧ Sample.run Sample.locked_os [] = (Raise usage, []).
Proof.
  split; [reflexivity |].
  apply (proj1 (@usage_error Sample.locked_os Sample.provider
                  Sample.spec_visitor Sample.json [] [])).
  reflexivity.
Defined.

(** C4, as stated, fails: the usage error is not the only fatal error.  A
    path argument is given, the file it names cannot be read, and the run
    ends with the [IOError] of [open]. *)
Lemma usage_error_not_the_only_fatal_error :
  getopt ["/locked/secret.py"] = Ok ["/locked/secret.py"]
  ∧ Sample.run Sample.locked_os ["/locked/secret.py"]
    = (Raise (Exn IOError "[Errno 13] Permission denied"),
       [Open "/locked/secret.py"])
  ∧ ¬ (∀ e σ, Sample.run Sample.locked_os ["/locked/secret.py"] = (Raise e, σ) →
              e = usage).
Proof.
  split_and!; [reflexivity | vm_compute; reflexivity |].
  intros Honly.
  specialize (Honly (Exn IOError "[Errno 13] Permission denied")
                [Open "/locked/secret.py"]).
  assert (Exn IOError "[Errno 13] Permission denied" = usage) as Heq
    by (apply Honly; vm_compute; reflexivity).
  discriminate Heq.
Qed.

(** C3, as stated, fails: a source file that cannot be read is not
    contained.  The run over the directory ends with the [IOError] at the
    second of three sources; the third is never opened and nothing is
    printed. *)
Lemma unreadable_file_not_contained :
  @source_files Sample.locked_os "/locked" ["a.py"; "secret.py"; "z.py"]
  = ["/locked/a.py"; "/locked/secret.py"; "/locked/z.py"]
  ∧ Sample.run Sample.locked_os ["/locked"]
    = (Raise (Exn IOError "[Errno 13] Permission denied"),
       [Open "/locked/a.py"; Open "/locked/secret.py"])
  ∧ ¬ (∃ σ, Sample.run Sample.locked_os ["/locked"] = (Ok (), σ)
            ∧ "/locked/z.py" ∈ opened σ).
Proof.
  split_and!; [vm_compute; reflexivity | vm_compute; reflexivity |].
  intros (σ & Hrun & _).
  assert (Sample.run Sample.locked_os ["/locked"]
          = (Raise (Exn IOError "[Errno 13] Permission denied"),
             [Open "/locked/a.py"; Open "/locked/secret.py"])) as Hreal
    by (vm_compute; reflexivity).
  rewrite Hreal in Hrun. discriminate Hrun.
Qed.

(** C5, as stated, fails: the regular file [.py] is a direct child whose
    name ends in [.py], and the run over its directory does not open it. *)
Lemma dot_py_is_not_an_input :
  @listdir Sample.project_os "/proj"
  = Ok ["a.py"; ".py"; "notes.txt"; "sub"; "bad.py"]
  ∧ opened (Sample.run Sample.project_os ["/proj"]).2
    = ["/proj/a.py"; "/proj/bad.py"]
  ∧ ¬ (∀ entry,
         entry ∈ ["a.py"; ".py"; "notes.txt"; "sub"; "bad.py"] →
         @isfile Sample.project_os (join "/proj" entry) = true →
         endswith ".py" entry = true →
         @abspath Sample.project_os (join "/proj" entry)
         ∈ opened (Sample.run Sample.project_os ["/proj"]).2).
Proof.
  split_and!; [vm_compute; reflexivity | vm_compute; reflexivity |].
  intros Hall.
  assert (".py" ∈ ["a.py"; ".py"; "notes.txt"; "sub"; "bad.py"]) as Hentry
    by (right; left).
  assert (@isfile Sample.project_os (join "/proj" ".py") = true) as Hfile
    by (vm_compute; reflexivity).
  assert (endswith ".py" ".py" = true) as Hsuffix by (vm_compute; reflexivity).
  pose proof (Hall ".py" Hentry Hfile Hsuffix) as Hin.
  revert Hin. vm_compute. intros Hin.
  inversion Hin as [| ? ? ? Hin1]; subst.
  inversion Hin1 as [| ? ? ? Hin2]; subst.
  inversion Hin2.
Qed.

(** C6, as stated, fails: when the path is neither a directory nor a file
    the run completes, and standard output holds two lines, the first of
    which is the diagnostic. *)
Lemma diagnostic_on_standard_output :
  Sample.run Sample.project_os ["/nowhere"]
  = (Ok (), [Print "/nowhere is not a directory or file."; Print "{}"])
  ∧ ¬ (∃ text, stdout (Sample.run Sample.project_os ["/nowhere"]).2 = [text]).
Proof.
  assert (Sample.run Sample.project_os ["/nowhere"]
          = (Ok (), [Print "/nowhere is not a directory or file."; Print "{}"]))
    as Hrun by (vm_compute; reflexivity).
  split; [exact Hrun |]. rewrite Hrun. intros [text Hone]. discriminate Hone.
Qed.

(** With the state in class attributes, a second call does not repeat
    the first. *)
Lemma shared_state_is_not_deterministic :
  let V := Store.class_level Sample.render in
  let first := @Store.parse_method_call_tokens Sample.provider V
                 Sample.example_text Store.initial in
  let second := @Store.parse_method_call_tokens Sample.provider V
                  Sample.example_text first.2 in
  first.1 = Ok {[ "imports" := ["os"; "json"];
                  "calls" := ["os"; "json"; "undefined_call"] ]}
  ∧ second.1 = Ok {[ "imports" := ["os"; "json"];
                     "calls" := ["os"; "json"; "undefined_call";
                                 "os"; "json"; "undefined_call"] ]}.
Proof. split; reflexivity. Qed.

Lemma project_source_files :
  @source_files Sample.project_os "/proj"
    ["a.py"; ".py"; "notes.txt"; "sub"; "bad.py"]
  = ["/proj/a.py"; "/proj/bad.py"].
Proof. vm_compute. reflexivity. Qed.

Lemma per_file_failures_witness :
  (getopt ["/locked"] = Ok ["/locked"]
   ∧ @isdir Sample.locked_os (@abspath Sample.locked_os "/locked") = true
   ∧ @listdir Sample.locked_os (@abspath Sample.locked_os "/locked")
     = Ok ["a.py"; "secret.py"; "z.py"]
   ∧ Sample.run Sample.locked_os ["/locked"]
     = (Raise (Exn IOError "[Errno 13] Permission denied"),
        [Open "/locked/a.py"; Open "/locked/secret.py"]))
  ∧ (getopt ["/proj"] = Ok ["/proj"]
     ∧ @isdir Sample.project_os (@abspath Sample.project_os "/proj") = true
     ∧ @listdir Sample.project_os (@abspath Sample.project_os "/proj")
       = Ok ["a.py"; ".py"; "notes.txt"; "sub"; "bad.py"]
     ∧ ∃ data : CorpusReport, data !! "/proj/bad.py" = Some empty_report).
Proof.
  split.
  - split_and!;
      [reflexivity | vm_compute; reflexivity | vm_compute; reflexivity |].
    destruct (@per_file_failures Sample.locked_os Sample.provider
                Sample.spec_visitor Sample.json ["/locked"] "/locked" []
                ["a.py"; "secret.py"; "z.py"] [])
      as (_ & _ & Hfirst);
      [reflexivity | reflexivity | reflexivity |].
    apply (Hfirst ["/locked/a.py"] "/locked/secret.py" ["/locked/z.py"]).
    + reflexivity.
    + intros filename Hin. inversion Hin as [| ? ? ? Hin1]; subst.
      * exists "import os". eexists. split; reflexivity.
      * inversion Hin1.
    + left. reflexivity.
  - split_and!;
      [reflexivity | vm_compute; reflexivity | vm_compute; reflexivity |].
    destruct (@per_file_failures Sample.project_os Sample.provider
                Sample.spec_visitor Sample.json ["/proj"] "/proj" []
                ["a.py"; ".py"; "notes.txt"; "sub"; "bad.py"] [])
      as [Hcontained _];
      [reflexivity | vm_compute; reflexivity | vm_compute; reflexivity |].
    destruct Hcontained as (data & _ & _ & Hempty).
    + intros filename Hin.
      pose proof (eq_ind _ (λ files, filename ∈ files) Hin _
                    project_source_files) as Hin'.
      cbv beta in Hin'.
      inversion Hin' as [| ? ? ? Hin1]; subst.
      * exists Sample.example_text. split; [vm_compute; reflexivity |].
        intros e He. vm_compute in He. discriminate He.
      * inversion Hin1 as [| ? ? ? Hin2]; subst; [| inversion Hin2].
        exists Sample.malformed_text. split; [vm_compute; reflexivity |].
        intros e He. vm_compute in He. discriminate He.
    + exists data.
      apply (Hempty "/proj/bad.py" Sample.malformed_text
               (Exn SyntaxError "invalid syntax")).
      * apply elem_of_source_files. exists "bad.py".
        split_and!; [do 4 right; left | vm_compute; reflexivity
                    | vm_compute; reflexivity | vm_compute; reflexivity].
      * vm_compute. reflexivity.
      * vm_compute. reflexivity.
      * reflexivity.
Defined.

Lemma directory_inputs_witness :
  getopt ["/proj"] = Ok ["/proj"]
  ∧ @isdir Sample.project_os (@abspath Sample.project_os "/proj") = true
  ∧ @listdir Sample.project_os (@abspath Sample.project_os "/proj")
    = Ok ["a.py"; ".py"; "notes.txt"; "sub"; "bad.py"]
  ∧ ∃ data : CorpusReport,
      ("/proj/a.py" ∈ dom data) ∧ ("/proj/.py" ∉ dom data)
      ∧ ("/proj/sub/deep.py" ∉ dom data).
Proof.
  split_and!; [reflexivity | vm_compute; reflexivity | vm_compute; reflexivity |].
  destruct (@directory_inputs Sample.project_os Sample.provider
              Sample.spec_visitor Sample.json ["/proj"] "/proj" []
              ["a.py"; ".py"; "notes.txt"; "sub"; "bad.py"])
    as (_ & _ & Hrun);
    [reflexivity | vm_compute; reflexivity | vm_compute; reflexivity |].
  destruct (Hrun [] (Sample.run Sample.project_os ["/proj"]).2)
    as (data & text & _ & _ & Hdom); [vm_compute; reflexivity |].
  exists data. split_and!.
  - apply Hdom. exists "a.py".
    split_and!; [left | vm_compute; reflexivity | vm_compute; reflexivity
                | vm_compute; reflexivity].
  - intros (entry & _ & _ & _ & Hext)%Hdom. vm_compute in Hext.
    discriminate Hext.
  - intros (entry & Hentry & Hjoin & _)%Hdom.
    repeat (inversion Hentry as [| ? ? ? Hentry']; subst;
            [vm_compute in Hjoin; discriminate Hjoin |];
            clear Hentry; rename Hentry' into Hentry).
    inversion Hentry.
Defined.

Lemma output_format_witness :
  isabs (@getcwd Sample.project_os) = true
  ∧ Sample.run Sample.project_os ["/proj/a.py"]
    = (Ok (), (Sample.run Sample.project_os ["/proj/a.py"]).2)
  ∧ ∃ text, stdout (Sample.run Sample.project_os ["/proj/a.py"]).2 = [text].
Proof.
  split_and!; [reflexivity | vm_compute; reflexivity |].
  destruct (@output_format Sample.project_os Sample.provider
              Sample.spec_visitor Sample.json ["/proj/a.py"]
              (Sample.run Sample.project_os ["/proj/a.py"]).2)
    as (arg0 & rest & files & data & text & Hargs & _ & Hσ & _);
    [reflexivity | vm_compute; reflexivity |].
  injection Hargs as <- <-. exists text.
  assert (@isdir Sample.project_os (@abspath Sample.project_os "/proj/a.py")
          || @isfile Sample.project_os (@abspath Sample.project_os "/proj/a.py")
          = true) as Hkind by (vm_compute; reflexivity).
  rewrite Hkind in Hσ. rewrite Hσ, stdout_app, stdout_opens. reflexivity.
Defined.

(** ** Normal forms of absolute paths *)

Lemma entry_name_inv name :
  entry_name name = true →
  name ≠ "" ∧ name ≠ "." ∧ name ≠ ".." ∧ contains "/" name = false.
Proof.
  unfold entry_name. rewrite !andb_true_iff, !negb_true_iff, !String.eqb_neq.
  naive_solver.
Qed.

Lemma entry_name_head name :
  entry_name name = true → startswith "/" name = false.
Proof.
  intros (Hne & _ & _ & Hslash)%entry_name_inv.
  destruct name as [| a rest]; [done |]. cbn [contains startswith] in *.
  apply orb_false_iff in Hslash as [Ha _].
  rewrite Ascii.eqb_sym, Ha. done.
Qed.

Lemma split_slash_plain name :
  contains "/" name = false → split_slash name = [name].
Proof.
  induction name as [| a rest IH]; [done |]. cbn [contains split_slash].
  intros [Ha Hrest]%orb_false_iff. rewrite Ha, (IH Hrest). done.
Qed.

Lemma split_slash_app name tail :
  contains "/" name = false →
  split_slash (name +:+ "/" +:+ tail) = name :: split_slash tail.
Proof.
  induction name as [| a rest IH]; [done |]. cbn [contains].
  intros [Ha Hrest]%orb_false_iff.
  change (String a rest +:+ "/" +:+ tail) with (String a (rest +:+ "/" +:+ tail)).
  cbn [split_slash]. rewrite Ha, (IH Hrest). done.
Qed.

Lemma split_slash_contains path :
  Forall (λ comp, contains "/" comp = false) (split_slash path).
Proof.
  induction path as [| a rest IH]; [by repeat constructor |].
  cbn [split_slash]. destruct (Ascii.eqb a "/") eqn:Ha.
  - by constructor.
  - destruct (split_slash rest) as [| h t].
    { constructor; [| done]. cbn [contains]. by rewrite Ha. }
    inversion IH as [| ? ? Hh Ht]; subst. constructor; [| done].
    cbn [contains]. by rewrite Ha, Hh.
Qed.

Lemma split_join_slash comps :
  comps ≠ [] → Forall (λ comp, entry_name comp = true) comps →
  split_slash (join_slash comps) = comps.
Proof.
  induction comps as [| c comps IH]; [done |]. intros _ Hall.
  inversion Hall as [| ? ? Hc Hrest]; subst.
  apply entry_name_inv in Hc as (_ & _ & _ & Hc).
  destruct comps as [| c' comps].
  - by apply split_slash_plain.
  - change (join_slash (c :: c' :: comps))
      with (c +:+ "/" +:+ join_slash (c' :: comps)).
    rewrite split_slash_app by done. by rewrite IH.
Qed.

Lemma join_slash_head comps :
  Forall (λ comp, entry_name comp = true) comps →
  startswith "/" (join_slash comps) = false.
Proof.
  destruct comps as [| c comps]; [done |]. intros Hall.
  inversion Hall as [| ? ? Hc Hrest]; subst.
  pose proof (entry_name_head _ Hc) as Hhead.
  apply entry_name_inv in Hc as (Hne & _).
  destruct c as [| a c]; [done |].
  destruct comps; [done |]. exact Hhead.
Qed.

Lemma normpath_step_entry n acc comp :
  entry_name comp = true → normpath_step n acc comp = acc ++ [comp].
Proof.
  intros (Hne & Hdot & Hdots & _)%entry_name_inv. unfold normpath_step.
  apply String.eqb_neq in Hne, Hdot, Hdots. by rewrite Hne, Hdot, Hdots.
Qed.

Lemma normpath_fold_entries n comps acc :
  Forall (λ comp, entry_name comp = true) comps →
  fold_left (normpath_step n) comps acc = acc ++ comps.
Proof.
  revert acc. induction comps as [| c comps IH]; intros acc Hall.
  - by rewrite app_nil_r.
  - inversion Hall as [| ? ? Hc Hrest]; subst. cbn [fold_left].
    rewrite normpath_step_entry, IH by done. by rewrite <- app_assoc.
Qed.

Lemma Forall_removelast {A} (P : A → Prop) l :
  Forall P l → Forall P (removelast l).
Proof.
  induction 1 as [| x l Hx Hl IH]; [done |]. cbn.
  destruct l; [done | by constructor].
Qed.

(** With a leading slash, the component loop of [normpath] keeps nothing
    but plain names. *)
Lemma normpath_step_keeps n acc comp :
  n ≠ 0%nat → contains "/" comp = false →
  Forall (λ c, entry_name c = true) acc →
  Forall (λ c, entry_name c = true) (normpath_step n acc comp).
Proof.
  intros Hn Hslash Hacc. unfold normpath_step.
  destruct (String.eqb comp "") eqn:Hempty; [done |].
  destruct (String.eqb comp ".") eqn:Hdot; [done |]. cbn [orb].
  destruct (String.eqb comp "..") eqn:Hdots; cbn [negb orb].
  - destruct (Nat.eqb_spec n 0) as [| _]; [done |]. cbn [andb orb].
    case_bool_decide as Hlast; [| by apply Forall_removelast].
    apply last_Some_elem_of in Hlast.
    rewrite Forall_forall in Hacc. by specialize (Hacc _ Hlast).
  - apply Forall_app. split; [done |]. constructor; [| done].
    unfold entry_name. by rewrite Hempty, Hdot, Hdots, Hslash.
Qed.

Lemma normpath_fold_keeps n comps acc :
  n ≠ 0%nat → Forall (λ c, contains "/" c = false) comps →
  Forall (λ c, entry_name c = true) acc →
  Forall (λ c, entry_name c = true) (fold_left (normpath_step n) comps acc).
Proof.
  intros Hn. revert acc. induction comps as [| c comps IH]; intros acc Hall Hacc.
  - done.
  - inversion Hall as [| ? ? Hc Hrest]; subst. cbn [fold_left].
    apply IH; [done |]. by apply normpath_step_keeps.
Qed.

(** The normal form of an absolute path: one or two slashes, then plain
    names separated by single slashes. *)
Lemma normpath_normal_form path :
  isabs path = true →
  ∃ n comps, (n = 1 ∨ n = 2)%nat
             ∧ Forall (λ c, entry_name c = true) comps
             ∧ normpath path = slashes n +:+ join_slash comps.
Proof.
  intros [rest ->]%isabs_cons. unfold normpath.
  change (String.eqb (String "/" rest) "") with false. cbv iota.
  change (startswith "/" (String "/" rest)) with true. cbv iota.
  set (n := if startswith "//" (String "/" rest)
               && negb (startswith "///" (String "/" rest))
            then 2%nat else 1%nat).
  assert (n = 1 ∨ n = 2)%nat as Hn by (unfold n; destruct (_ && _); auto).
  exists n, (fold_left (normpath_step n) (split_slash (String "/" rest)) []).
  split_and!; [done | |].
  - apply normpath_fold_keeps; [lia | apply split_slash_contains | done].
  - by destruct Hn as [-> | ->].
Qed.

Lemma normpath_of_normal_form n comps :
  (n = 1 ∨ n = 2)%nat → Forall (λ c, entry_name c = true) comps →
  normpath (slashes n +:+ join_slash comps) = slashes n +:+ join_slash comps.
Proof.
  intros Hn Hall.
  pose proof (join_slash_head _ Hall) as Hhead.
  assert (fold_left (normpath_step n) (split_slash (join_slash comps)) [] = comps)
    as Hfold.
  { destruct comps as [| c comps]; [done |].
    rewrite split_join_slash by done. by apply normpath_fold_entries. }
  destruct Hn as [-> | ->].
  - change (slashes 1 +:+ join_slash comps) with (String "/" (join_slash comps)).
    unfold normpath.
    change (String.eqb (String "/" (join_slash comps)) "") with false. cbv iota.
    change (startswith "/" (String "/" (join_slash comps))) with true. cbv iota.
    change (startswith "//" (String "/" (join_slash comps)))
      with (startswith "/" (join_slash comps)).
    rewrite Hhead. cbn [andb]. cbv iota.
    change (split_slash (String "/" (join_slash comps)))
      with ("" :: split_slash (join_slash comps)).
    cbn [fold_left]. change (normpath_step 1 [] "") with (@nil string).
    by rewrite Hfold.
  - change (slashes 2 +:+ join_slash comps)
      with (String "/" (String "/" (join_slash comps))).
    unfold normpath.
    change (String.eqb (String "/" (String "/" (join_slash comps))) "") with false.
    cbv iota.
    change (startswith "/" (String "/" (String "/" (join_slash comps)))) with true.
    cbv iota.
    change (startswith "//" (String "/" (String "/" (join_slash comps)))) with true.
    change (startswith "///" (String "/" (String "/" (join_slash comps))))
      with (startswith "/" (join_slash comps)).
    rewrite Hhead. cbn [andb negb]. cbv iota.
    change (split_slash (String "/" (String "/" (join_slash comps))))
      with ("" :: "" :: split_slash (join_slash comps)).
    cbn [fold_left]. change (normpath_step 2 [] "") with (@nil string).
    change (normpath_step 2 [] "") with (@nil string).
    by rewrite Hfold.
Qed.

(** [normpath] changes nothing in the normal form of an absolute path. *)
Lemma normpath_idempotent path :
  isabs path = true → normpath (normpath path) = normpath path.
Proof.
  intros (n & comps & Hn & Hall & ->)%normpath_normal_form.
  by apply normpath_of_normal_form.
Qed.

Lemma append_assoc (s t u : string) : (s +:+ t) +:+ u = s +:+ t +:+ u.
Proof.
  induction s as [| a s IH]; [done |].
  change (String a (s +:+ t) +:+ u = String a (s +:+ t +:+ u)).
  change (String a ((s +:+ t) +:+ u) = String a (s +:+ t +:+ u)).
  by rewrite IH.
Qed.

Lemma endswith_slash_cons a rest :
  rest ≠ "" → endswith "/" (String a rest) = endswith "/" rest.
Proof.
  intros Hrest. cbn [endswith].
  destruct rest as [| b rest]; [done |].
  change (String.eqb (String a (String b rest)) "/")
    with (if Ascii.eqb a "/" then false else false).
  by destruct (Ascii.eqb a "/").
Qed.

Lemma endswith_slash_plain name :
  contains "/" name = false → endswith "/" name = false.
Proof.
  induction name as [| a rest IH]; [done |]. cbn [contains].
  intros [Ha Hrest]%orb_false_iff.
  destruct rest as [| b rest].
  - cbn [endswith].
    change (String.eqb (String a "") "/") with (if Ascii.eqb a "/" then true else false).
    by rewrite Ha.
  - rewrite endswith_slash_cons by done. by apply IH.
Qed.

Lemma endswith_slash_app s t :
  t ≠ "" → endswith "/" (s +:+ t) = endswith "/" t.
Proof.
  intros Ht. induction s as [| a s IH]; [done |].
  change (String a s +:+ t) with (String a (s +:+ t)).
  rewrite endswith_slash_cons; [done |].
  destruct s; [done | discriminate].
Qed.

Lemma join_slash_snoc comps name :
  comps ≠ [] → join_slash (comps ++ [name]) = join_slash comps +:+ "/" +:+ name.
Proof.
  induction comps as [| c comps IH]; [done |]. intros _.
  destruct comps as [| c' comps]; [done |].
  change (join_slash ((c :: c' :: comps) ++ [name]))
    with (c +:+ "/" +:+ join_slash ((c' :: comps) ++ [name])).
  rewrite IH by done.
  change (join_slash (c :: c' :: comps))
    with (c +:+ "/" +:+ join_slash (c' :: comps)).
  by rewrite !append_assoc.
Qed.

Lemma join_slash_last comps :
  comps ≠ [] → Forall (λ c, entry_name c = true) comps →
  endswith "/" (join_slash comps) = false ∧ join_slash comps ≠ "".
Proof.
  induction comps as [| c comps IH]; [done |]. intros _ Hall.
  inversion Hall as [| ? ? Hc Hrest]; subst.
  apply entry_name_inv in Hc as (Hne & _ & _ & Hc).
  destruct comps as [| c' comps].
  - split; [by apply endswith_slash_plain | done].
  - destruct IH as [IH Hne']; [done | done |].
    change (join_slash (c :: c' :: comps))
      with (c +:+ String "/" (join_slash (c' :: comps))).
    split.
    + rewrite endswith_slash_app by done.
      rewrite endswith_slash_cons; done.
    + by destruct c.
Qed.

(** Joining a plain name to a normal form gives a normal form. *)
Lemma join_normal_form n comps name :
  (n = 1 ∨ n = 2)%nat → Forall (λ c, entry_name c = true) comps →
  entry_name name = true →
  join (slashes n +:+ join_slash comps) name
  = slashes n +:+ join_slash (comps ++ [name]).
Proof.
  intros Hn Hall Hname. unfold join.
  rewrite (entry_name_head _ Hname).
  assert (String.eqb (slashes n +:+ join_slash comps) "" = false) as ->
    by (by destruct Hn as [-> | ->]).
  cbn [orb].
  destruct comps as [| c comps].
  - by destruct Hn as [-> | ->].
  - destruct (join_slash_last (c :: comps)) as [Hlast Hne]; [done | done |].
    rewrite endswith_slash_app, Hlast by done.
    rewrite join_slash_snoc by done. by rewrite !append_assoc.
Qed.

Section AbsolutePaths.
Context {os : OS}.
Hypothesis cwd_absolute : isabs getcwd = true.

Lemma abspath_normal_form path :
  ∃ n comps, (n = 1 ∨ n = 2)%nat
             ∧ Forall (λ c, entry_name c = true) comps
             ∧ abspath path = slashes n +:+ join_slash comps.
Proof.
  unfold abspath. apply normpath_normal_form.
  destruct (isabs path) eqn:Hpath; [done | by apply isabs_join].
Qed.

Lemma abspath_idempotent path : abspath (abspath path) = abspath path.
Proof.
  unfold abspath at 1. rewrite isabs_abspath by done.
  destruct (abspath_normal_form path) as (n & comps & Hn & Hall & ->).
  by apply normpath_of_normal_form.
Qed.

Lemma abspath_join_entry path name :
  entry_name name = true →
  abspath (join (abspath path) name) = join (abspath path) name.
Proof.
  intros Hname. unfold abspath at 1.
  rewrite isabs_join by (by apply isabs_abspath).
  destruct (abspath_normal_form path) as (n & comps & Hn & Hall & ->).
  rewrite join_normal_form by done. apply normpath_of_normal_form; [done |].
  apply Forall_app. split; [done | by constructor].
Qed.

End AbsolutePaths.

(** * Further properties of [parse.py] *)

(** ** [parse_method_call_tokens] *)

Section ParseMore.
Context {provider : SyntaxTreeProvider} {visitors : visitor_py}.

(** X1. The [try] block covers the visit as well as the parse: a
    [SyntaxError] raised by the visitor on a tree that [ast.parse] has
    built is recovered in the same way, and whatever the visitor had
    gathered is dropped for the empty report. *)
Theorem visit_syntax_error_recovered snippet tree e :
  ast_parse (py_str snippet) = Ok tree →
  visit ParserVisitor tree = Raise e → is_SyntaxError e = true →
  parse_method_call_tokens snippet
  = Ok {[ "imports" := []; "calls" := [] ]}.
Proof.
  intros Htree Hvisit Hsyn. unfold parse_method_call_tokens.
  by rewrite Htree, Hvisit, Hsyn.
Qed.

End ParseMore.

Lemma visit_syntax_error_recovered_witness :
  @ast_parse Sample.provider (py_str Sample.example_text)
  = Ok Sample.example_module
  ∧ @visit (Sample.failing_visitor (Exn SyntaxError "unsupported node"))
      (@ParserVisitor (Sample.failing_visitor (Exn SyntaxError "unsupported node")))
      Sample.example_module
    = Raise (Exn SyntaxError "unsupported node")
  ∧ is_SyntaxError (Exn SyntaxError "unsupported node") = true
  ∧ @parse_method_call_tokens Sample.provider
      (Sample.failing_visitor (Exn SyntaxError "unsupported node"))
      Sample.example_text
    = Ok {[ "imports" := []; "calls" := [] ]}.
Proof.
  split_and!; [vm_compute; reflexivity | reflexivity | reflexivity |].
  apply (@visit_syntax_error_recovered Sample.provider
           (Sample.failing_visitor (Exn SyntaxError "unsupported node"))
           Sample.example_text Sample.example_module
           (Exn SyntaxError "unsupported node")).
  - vm_compute. reflexivity.
  - reflexivity.
  - reflexivity.
Defined.

(** ** [main] *)

Section MainMore.
Context {os : OS} {provider : SyntaxTreeProvider} {visitors : visitor_py}
        {serialiser : JSON}.

Lemma getopt_positional arg0 rest :
  startswith "-" arg0 && negb (String.eqb arg0 "-") = false →
  getopt (arg0 :: rest) = Ok (arg0 :: rest).
Proof. intros Hplain. unfold getopt. by rewrite Hplain. Qed.

(** What the collection prints: nothing, unless the path is neither a
    directory nor a file, and then it returns the empty dictionary. *)
Lemma collect_stdout pathname σ :
  stdout (main_collect pathname σ).2 = stdout σ
  ∨ (main_collect pathname σ).1 = Ok ∅.
Proof.
  destruct (isdir pathname) eqn:Hdir; [| destruct (isfile pathname) eqn:Hfile].
  - left. unfold main_collect, mbind, M_bind, lift. rewrite Hdir.
    destruct (listdir pathname) as [entries |]; [| done].
    apply loop_stdout.
  - left. rewrite collect_file by done. cbn [snd].
    rewrite stdout_app. apply app_nil_r.
  - right. by rewrite collect_neither.
Qed.

(** X3. A path that names a file is analysed whatever its extension: the
    test on [.py] belongs to the directory branch only.  The file is
    opened once, under the absolute path that also keys its report, and
    the dictionary printed has this one entry. *)
Theorem single_file_any_extension argv arg0 rest text report σ :
  isabs getcwd = true →
  getopt argv = Ok (arg0 :: rest) →
  isdir (abspath arg0) = false → isfile (abspath arg0) = true →
  open_read (abspath arg0) = Ok text →
  parse_method_call_tokens text = Ok report →
  main argv σ
  = match json_dumps {[ abspath arg0 := report ]} with
    | Ok out => (Ok (), σ ++ [Open (abspath arg0); Print out])
    | Raise e => (Raise e, σ ++ [Open (abspath arg0)])
    end.
Proof.
  intros Hcwd Hargs Hdir Hfile Hread Hparse.
  rewrite (main_run _ _ _ _ Hargs), collect_file by done.
  rewrite (abspath_idempotent Hcwd), Hread, Hparse.
  destruct (json_dumps _); [by rewrite <- app_assoc | done].
Qed.

(** X4. Only the first positional argument counts: what follows it,
    further paths and options alike, is never looked at. *)
Theorem later_arguments_are_ignored arg0 rest σ :
  startswith "-" arg0 && negb (String.eqb arg0 "-") = false →
  main (arg0 :: rest) σ = main [arg0] σ.
Proof.
  intros Hplain.
  by rewrite (main_run _ _ _ _ (getopt_positional arg0 rest Hplain)),
             (main_run _ _ _ _ (getopt_positional arg0 [] Hplain)).
Qed.

(** X5. No option is declared, so a first argument that is an option
    (a dash and more, other than [--]) ends the run with [GetoptError]
    before anything is opened or printed; the usage error is not
    reached. *)
Theorem options_are_rejected arg0 rest σ :
  startswith "-" arg0 = true → arg0 ≠ "-" → arg0 ≠ "--" →
  ∃ msg, main (arg0 :: rest) σ = (Raise (Exn GetoptError msg), σ).
Proof.
  intros Hdash Hone%String.eqb_neq Htwo%String.eqb_neq.
  unfold main, mbind, M_bind, lift, getopt. rewrite Hdash, Hone, Htwo.
  cbn [negb andb]. destruct (startswith "--" arg0); by eexists.
Qed.

(** X6. A run that ends with an exception has printed nothing: the one
    line that can precede the dictionary, the diagnostic, is printed
    only on a path after which nothing can fail. *)
Theorem no_output_on_failure argv σ e σ' :
  main argv σ = (Raise e, σ') → stdout σ' = stdout σ.
Proof.
  destruct (getopt argv) as [[| arg0 rest] | e0] eqn:Hargs.
  - rewrite (main_usage _ _ Hargs). by intros [= _ <-].
  - rewrite (main_run _ _ _ _ Hargs).
    pose proof (collect_stdout (abspath arg0) σ) as Hout.
    destruct (main_collect (abspath arg0) σ) as [[data | e1] σ1];
      cbn [fst snd] in Hout.
    + destruct Hout as [Hout | [= ->]].
      * destruct (json_dumps data); [done |]. by intros [= _ <-].
      * by rewrite json_dumps_empty.
    + destruct Hout as [Hout | Hout]; [| done]. by intros [= _ <-].
  - unfold main, mbind, M_bind, lift. rewrite Hargs. by intros [= _ <-].
Qed.

(** X7. A directory without a source file, an empty one included, is not
    an error: nothing is opened and the empty dictionary is printed. *)
Theorem directory_without_sources argv arg0 rest entries σ :
  getopt argv = Ok (arg0 :: rest) →
  isdir (abspath arg0) = true → listdir (abspath arg0) = Ok entries →
  source_files (abspath arg0) entries = [] →
  main argv σ = (Ok (), σ ++ [Print "{}"]).
Proof.
  intros Hargs Hdir Hls Hnone.
  rewrite (main_run _ _ _ _ Hargs), (collect_directory _ _ _ Hdir Hls).
  destruct (loop_complete (abspath arg0) entries ∅ σ) as [data Hloop].
  { rewrite Hnone. intros filename Hin. by apply elem_of_nil in Hin. }
  rewrite Hloop.
  apply loop_ok_inv in Hloop as (_ & _ & _ & Hout).
  assert (data = ∅) as ->.
  { apply map_eq. intros filename. apply Hout. rewrite Hnone.
    apply not_elem_of_nil. }
  by rewrite json_dumps_empty, Hnone, app_nil_r.
Qed.

(** X8. A run over a directory ends at the first source file, in listing
    order, that cannot be read or analysed: the exception raised there
    is the outcome, the files before it have been opened, and no file
    after it is. *)
Theorem first_failure_ends_the_run argv arg0 rest entries before failing after e σ :
  getopt argv = Ok (arg0 :: rest) →
  isdir (abspath arg0) = true → listdir (abspath arg0) = Ok entries →
  source_files (abspath arg0) entries = before ++ failing :: after →
  (∀ filename, filename ∈ before →
     ∃ text report, open_read (abspath filename) = Ok text
                    ∧ parse_method_call_tokens text = Ok report) →
  open_read (abspath failing) = Raise e
  ∨ (∃ text, open_read (abspath failing) = Ok text
             ∧ parse_method_call_tokens text = Raise e) →
  main argv σ = (Raise e, σ ++ (Open <$> (abspath <$> before ++ [failing]))).
Proof.
  intros Hargs Hdir Hls Hsplit Hbefore Hfails.
  rewrite (main_run _ _ _ _ Hargs), (collect_directory _ _ _ Hdir Hls).
  by rewrite (loop_first_failure _ _ _ _ _ _ _ _ Hsplit Hbefore Hfails).
Qed.

(** X9. The dictionary does not depend on the order in which
    [os.listdir] returns the entries: if the loop runs to its end on one
    listing, it does so on every permutation of it, with the same
    dictionary. *)
Theorem listing_order_is_irrelevant pathname entries1 entries2 data σ σ1 :
  entries1 ≡ₚ entries2 →
  main_listdir_loop pathname entries1 ∅ σ = (Ok data, σ1) →
  ∃ σ2, main_listdir_loop pathname entries2 ∅ σ = (Ok data, σ2).
Proof.
  intros Hperm Hloop1.
  assert (∀ filename, filename ∈ source_files pathname entries2
                      ↔ filename ∈ source_files pathname entries1) as Hsame.
  { intros filename. rewrite !elem_of_source_files.
    by setoid_rewrite Hperm. }
  apply loop_ok_inv in Hloop1 as (_ & _ & Hin1 & Hout1).
  destruct (loop_complete pathname entries2 ∅ σ) as [data2 Hloop2].
  { intros filename Hin%Hsame.
    destruct (Hin1 _ Hin) as (text & report & ? & ? & _). eauto. }
  rewrite Hloop2. eexists. f_equal. f_equal.
  apply loop_ok_inv in Hloop2 as (_ & _ & Hin2 & Hout2).
  apply map_eq. intros filename.
  destruct (decide (filename ∈ source_files pathname entries1)) as [Hin | Hno].
  - destruct (Hin1 _ Hin) as (text1 & report1 & Hread1 & Hparse1 & ->).
    apply Hsame in Hin.
    destruct (Hin2 _ Hin) as (text2 & report2 & Hread2 & Hparse2 & ->).
    congruence.
  - rewrite (Hout1 _ Hno). apply Hout2. by rewrite Hsame.
Qed.

End MainMore.

Lemma opened_opens (paths : list string) : opened (Open <$> paths) = paths.
Proof.
  induction paths as [| p paths IH]; [done |].
  unfold opened in *. cbn. by rewrite IH.
Qed.

Lemma fmap_fixed {A} (f : A → A) (l : list A) :
  Forall (λ x, f x = x) l → f <$> l = l.
Proof. induction 1 as [| x l Hx Hl IH]; [done |]. by rewrite fmap_cons, Hx, IH. Qed.

Lemma getopt_absolute filename :
  isabs filename = true → getopt [filename] = Ok [filename].
Proof. intros [rest ->]%isabs_cons. done. Qed.

Section PathsOfARun.
Context {os : OS} {provider : SyntaxTreeProvider} {visitors : visitor_py}
        {serialiser : JSON}.
Hypothesis cwd_absolute : isabs getcwd = true.

(** Between an absolute directory and the names of its entries, the
    source files are their own absolute paths. *)
Lemma source_files_absolute path entries :
  Forall (λ name, entry_name name = true) entries →
  Forall (λ filename, abspath filename = filename)
         (source_files (abspath path) entries).
Proof.
  intros Hnames. apply Forall_forall.
  intros filename (entry & Hentry & -> & _)%elem_of_source_files.
  rewrite Forall_forall in Hnames.
  apply (abspath_join_entry cwd_absolute). by apply Hnames.
Qed.

(** X10. In a run that completes, every report is keyed by the very path
    under which its file was opened: the dictionary that [main] has
    built and printed has for keys the paths opened, in the order of the
    opens, and maps each to the report of the text read from that path,
    although [parse_file] makes each path absolute once more before it
    opens it. *)
Theorem reports_keyed_by_opened_paths argv arg0 rest σ σ' :
  getopt argv = Ok (arg0 :: rest) →
  (∀ entries, listdir (abspath arg0) = Ok entries →
     Forall (λ name, entry_name name = true) entries) →
  main argv σ = (Ok (), σ') →
  ∃ files data text σ1,
    main_collect (abspath arg0) σ = (Ok data, σ1)
    ∧ json_dumps data = Ok text
    ∧ σ' = σ1 ++ [Print text]
    ∧ dom data = list_to_set files
    ∧ opened σ' = opened σ ++ files
    ∧ ∀ filename report,
        data !! filename = Some report →
        ∃ content, open_read filename = Ok content
                   ∧ parse_method_call_tokens content = Ok report.
Proof.
  intros Hargs Hnames. rewrite (main_run _ _ _ _ Hargs).
  destruct (main_collect (abspath arg0) σ) as [[data | e] σ1] eqn:Hcollect;
    [| done].
  destruct (json_dumps data) as [text | e] eqn:Hdumps; [| done].
  intros [= <-].
  destruct (isdir (abspath arg0)) eqn:Hdir;
    [| destruct (isfile (abspath arg0)) eqn:Hfile].
  - unfold main_collect, mbind, M_bind, lift in Hcollect. rewrite Hdir in Hcollect.
    destruct (listdir (abspath arg0)) as [entries |] eqn:Hls; [| done].
    pose proof (source_files_absolute arg0 entries (Hnames _ eq_refl)) as Hfixed.
    apply loop_ok_inv in Hcollect as (-> & Hdom & Hin & Hout).
    exists (source_files (abspath arg0) entries), data, text.
    eexists. split_and!; [done | done | done | rewrite Hdom; set_solver | |].
    + rewrite (fmap_fixed abspath) by done.
      rewrite !opened_app, opened_opens. cbn. by rewrite app_nil_r.
    + intros filename report Hlook.
      destruct (decide (filename ∈ source_files (abspath arg0) entries))
        as [Hsrc | Hno]; [| by rewrite (Hout _ Hno) in Hlook].
      destruct (Hin _ Hsrc) as (content & report' & Hread & Hparse & Hlook').
      rewrite Forall_forall in Hfixed. rewrite (Hfixed _ Hsrc) in Hread.
      exists content. split; congruence.
  - rewrite collect_file, (abspath_idempotent cwd_absolute) in Hcollect by done.
    destruct (open_read (abspath arg0)) as [content |] eqn:Hread; [| done].
    destruct (parse_method_call_tokens content) as [report |] eqn:Hparse;
      [| done].
    injection Hcollect as <- <-.
    exists [abspath arg0], {[ abspath arg0 := report ]}, text.
    eexists. split_and!; [done | done | done | rewrite dom_singleton_L; set_solver | |].
    + rewrite !opened_app. cbn. by rewrite app_nil_r.
    + intros filename report' [<- <-]%lookup_singleton_Some. eauto.
  - rewrite collect_neither in Hcollect by done. injection Hcollect as <- <-.
    exists [], ∅, text. eexists.
    split_and!; [done | done | done | set_solver | |].
    + rewrite !opened_app. cbn. by rewrite !app_nil_r.
    + intros filename report Hlook. by rewrite lookup_empty in Hlook.
Qed.

(** X11. A file is given the same report whether it is analysed as part
    of its directory or on its own: the report it has in the dictionary
    of a directory run is the one entry of the dictionary printed when
    its path is the argument. *)
Theorem file_and_directory_reports_agree arg0 entries data σ σ1 filename report σ2 :
  Forall (λ name, entry_name name = true) entries →
  main_listdir_loop (abspath arg0) entries ∅ σ = (Ok data, σ1) →
  data !! filename = Some report → isdir filename = false →
  main [filename] σ2
  = match json_dumps {[ filename := report ]} with
    | Ok out => (Ok (), σ2 ++ [Open filename; Print out])
    | Raise e => (Raise e, σ2 ++ [Open filename])
    end.
Proof.
  intros Hnames (_ & _ & Hin & Hout)%loop_ok_inv Hlook Hdir.
  destruct (decide (filename ∈ source_files (abspath arg0) entries))
    as [Hsrc | Hno]; [| by rewrite (Hout _ Hno) in Hlook].
  destruct (Hin _ Hsrc) as (text & report' & Hread & Hparse & Hlook').
  assert (report' = report) as -> by congruence.
  assert (abspath filename = filename) as Hfix.
  { pose proof (source_files_absolute arg0 entries Hnames) as Hall.
    rewrite Forall_forall in Hall. by apply Hall. }
  apply elem_of_source_files in Hsrc as (entry & _ & Hjoin & Hfile & _).
  assert (isabs filename = true) as Habs
    by (rewrite Hjoin; by apply isabs_join, isabs_abspath).
  rewrite Hfix in Hread.
  rewrite (main_run _ _ _ _ (getopt_absolute _ Habs)), Hfix.
  rewrite collect_file, Hfix, Hread, Hparse by done.
  destruct (json_dumps _); [by rewrite <- app_assoc | done].
Qed.

(** X12. The path argument is taken relative to the current directory
    and normalised: giving the path in its absolute, normalised form
    instead changes nothing in the run. *)
Theorem path_argument_is_normalised arg0 σ :
  startswith "-" arg0 && negb (String.eqb arg0 "-") = false →
  main [abspath arg0] σ = main [arg0] σ.
Proof.
  intros Hplain.
  rewrite (main_run _ _ _ _ (getopt_positional arg0 [] Hplain)).
  rewrite (main_run _ _ _ _ (getopt_absolute _ (isabs_abspath arg0 cwd_absolute))).
  by rewrite (abspath_idempotent cwd_absolute).
Qed.

(** X13. [parse_file] opens a file under its absolute, normalised path,
    so a filename and its absolute form are read as the same file, with
    the same outcome. *)
Theorem parse_file_abspath filename σ :
  parse_file (abspath filename) σ = parse_file filename σ.
Proof. by rewrite !parse_file_run, (abspath_idempotent cwd_absolute). Qed.

End PathsOfARun.

(** ** The further properties on the sample inputs *)

Lemma single_file_any_extension_witness :
  isabs (@getcwd Sample.project_os) = true
  ∧ getopt ["/proj/notes.txt"] = Ok ["/proj/notes.txt"]
  ∧ @isdir Sample.project_os (@abspath Sample.project_os "/proj/notes.txt") = false
  ∧ @isfile Sample.project_os (@abspath Sample.project_os "/proj/notes.txt") = true
  ∧ @open_read Sample.project_os (@abspath Sample.project_os "/proj/notes.txt")
    = Ok "import csv"
  ∧ @parse_method_call_tokens Sample.provider Sample.spec_visitor "import csv"
    = Ok {[ "imports" := ["csv"]; "calls" := [] ]}
  ∧ (Sample.run Sample.project_os ["/proj/notes.txt"]).1 = Ok ()
  ∧ opened (Sample.run Sample.project_os ["/proj/notes.txt"]).2
    = ["/proj/notes.txt"].
Proof.
  assert (Sample.run Sample.project_os ["/proj/notes.txt"]
          = match @json_dumps Sample.json
                    {[ @abspath Sample.project_os "/proj/notes.txt"
                       := {[ "imports" := ["csv"]; "calls" := [] ]} ]} with
            | Ok out => (Ok (), [] ++ [Open (@abspath Sample.project_os "/proj/notes.txt");
                                        Print out])
            | Raise e => (Raise e, [] ++ [Open (@abspath Sample.project_os "/proj/notes.txt")])
            end) as Hrun.
  { apply (@single_file_any_extension Sample.project_os Sample.provider
             Sample.spec_visitor Sample.json ["/proj/notes.txt"]
             "/proj/notes.txt" [] "import csv");
      [reflexivity | reflexivity | reflexivity..]. }
  split_and!; [reflexivity | reflexivity | reflexivity.. | |].
  - rewrite Hrun. reflexivity.
  - rewrite Hrun. reflexivity.
Defined.

Lemma later_arguments_are_ignored_witness :
  startswith "-" "/proj/a.py" && negb (String.eqb "/proj/a.py" "-") = false
  ∧ @main Sample.project_os Sample.provider Sample.spec_visitor Sample.json
      ["/proj/a.py"; "--bogus"; "/nowhere"] []
    = @main Sample.project_os Sample.provider Sample.spec_visitor Sample.json
        ["/proj/a.py"] [].
Proof.
  split; [reflexivity |].
  apply (@later_arguments_are_ignored Sample.project_os Sample.provider
           Sample.spec_visitor Sample.json). reflexivity.
Defined.

Lemma options_are_rejected_witness :
  startswith "-" "-h" = true
  ∧ ∃ msg, Sample.run Sample.project_os ["-h"; "/proj"]
           = (Raise (Exn GetoptError msg), []).
Proof.
  split; [reflexivity |].
  apply (@options_are_rejected Sample.project_os Sample.provider
           Sample.spec_visitor Sample.json "-h" ["/proj"] []);
    [reflexivity | discriminate | discriminate].
Defined.

Lemma no_output_on_failure_witness :
  Sample.run Sample.locked_os ["/locked"]
  = (Raise (Exn IOError "[Errno 13] Permission denied"),
     [Open "/locked/a.py"; Open "/locked/secret.py"])
  ∧ stdout [Open "/locked/a.py"; Open "/locked/secret.py"] = stdout [].
Proof.
  split; [reflexivity |].
  apply (@no_output_on_failure Sample.locked_os Sample.provider
           Sample.spec_visitor Sample.json ["/locked"] []
           (Exn IOError "[Errno 13] Permission denied")).
  reflexivity.
Defined.

Lemma directory_without_sources_witness :
  getopt ["/docs"] = Ok ["/docs"]
  ∧ @isdir Sample.docs_os (@abspath Sample.docs_os "/docs") = true
  ∧ @listdir Sample.docs_os (@abspath Sample.docs_os "/docs")
    = Ok ["readme.txt"; "img"; "setup.pyc"]
  ∧ @source_files Sample.docs_os (@abspath Sample.docs_os "/docs")
      ["readme.txt"; "img"; "setup.pyc"] = []
  ∧ Sample.run Sample.docs_os ["/docs"] = (Ok (), [Print "{}"]).
Proof.
  split_and!; [reflexivity | reflexivity.. |].
  apply (@directory_without_sources Sample.docs_os Sample.provider
           Sample.spec_visitor Sample.json ["/docs"] "/docs" []
           ["readme.txt"; "img"; "setup.pyc"] []);
    [reflexivity | reflexivity..].
Defined.

Lemma first_failure_ends_the_run_witness :
  getopt ["/locked"] = Ok ["/locked"]
  ∧ @source_files Sample.locked_os (@abspath Sample.locked_os "/locked")
      ["a.py"; "secret.py"; "z.py"]
    = ["/locked/a.py"] ++ "/locked/secret.py" :: ["/locked/z.py"]
  ∧ @open_read Sample.locked_os (@abspath Sample.locked_os "/locked/secret.py")
    = Raise (Exn IOError "[Errno 13] Permission denied")
  ∧ Sample.run Sample.locked_os ["/locked"]
    = (Raise (Exn IOError "[Errno 13] Permission denied"),
       [Open "/locked/a.py"; Open "/locked/secret.py"]).
Proof.
  split_and!; [reflexivity | reflexivity | reflexivity |].
  assert (Sample.run Sample.locked_os ["/locked"]
          = (Raise (Exn IOError "[Errno 13] Permission denied"),
             [] ++ (Open <$> (@abspath Sample.locked_os
                               <$> ["/locked/a.py"] ++ ["/locked/secret.py"]))))
    as Hrun.
  { apply (@first_failure_ends_the_run Sample.locked_os Sample.provider
             Sample.spec_visitor Sample.json ["/locked"] "/locked" []
             ["a.py"; "secret.py"; "z.py"]
             ["/locked/a.py"] "/locked/secret.py" ["/locked/z.py"]).
    - reflexivity.
    - reflexivity.
    - reflexivity.
    - reflexivity.
    - intros filename Hin. inversion Hin as [| ? ? ? Hin1]; subst.
      + exists "import os". eexists. split; reflexivity.
      + inversion Hin1.
    - left. reflexivity. }
  rewrite Hrun. reflexivity.
Defined.

Lemma listing_order_is_irrelevant_witness :
  ["bad.py"; "sub"; "notes.txt"; ".py"; "a.py"]
  ≡ₚ ["a.py"; ".py"; "notes.txt"; "sub"; "bad.py"]
  ∧ @main_listdir_loop Sample.project_os Sample.provider Sample.spec_visitor
      "/proj" ["bad.py"; "sub"; "notes.txt"; ".py"; "a.py"] ∅ []
    = (Ok {[ "/proj/a.py" := {[ "imports" := ["os"; "json"];
                                "calls" := ["os"; "json"; "undefined_call"] ]};
             "/proj/bad.py" := empty_report ]},
       [Open "/proj/bad.py"; Open "/proj/a.py"])
  ∧ ∃ σ2,
      @main_listdir_loop Sample.project_os Sample.provider Sample.spec_visitor
        "/proj" ["a.py"; ".py"; "notes.txt"; "sub"; "bad.py"] ∅ []
      = (Ok {[ "/proj/a.py" := {[ "imports" := ["os"; "json"];
                                  "calls" := ["os"; "json"; "undefined_call"] ]};
               "/proj/bad.py" := empty_report ]},
         σ2).
Proof.
  assert (["bad.py"; "sub"; "notes.txt"; ".py"; "a.py"]
          ≡ₚ ["a.py"; ".py"; "notes.txt"; "sub"; "bad.py"]) as Hperm
    by apply (reverse_Permutation ["a.py"; ".py"; "notes.txt"; "sub"; "bad.py"]).
  split_and!; [exact Hperm | reflexivity |].
  apply (@listing_order_is_irrelevant Sample.project_os Sample.provider
           Sample.spec_visitor "/proj"
           ["bad.py"; "sub"; "notes.txt"; ".py"; "a.py"]
           ["a.py"; ".py"; "notes.txt"; "sub"; "bad.py"] _ []
           [Open "/proj/bad.py"; Open "/proj/a.py"] Hperm).
  reflexivity.
Defined.

Lemma reports_keyed_by_opened_paths_witness :
  isabs (@getcwd Sample.project_os) = true
  ∧ getopt ["/proj"] = Ok ["/proj"]
  ∧ @listdir Sample.project_os (@abspath Sample.project_os "/proj")
    = Ok ["a.py"; ".py"; "notes.txt"; "sub"; "bad.py"]
  ∧ Forall (λ name, entry_name name = true)
           ["a.py"; ".py"; "notes.txt"; "sub"; "bad.py"]
  ∧ (Sample.run Sample.project_os ["/proj"]).1 = Ok ()
  ∧ opened (Sample.run Sample.project_os ["/proj"]).2
    = ["/proj/a.py"; "/proj/bad.py"]
  ∧ ∃ data : CorpusReport,
      (@main_collect Sample.project_os Sample.provider Sample.spec_visitor
         (@abspath Sample.project_os "/proj") []).1 = Ok data
      ∧ dom data = list_to_set ["/proj/a.py"; "/proj/bad.py"]
      ∧ ∀ filename report,
          data !! filename = Some report →
          ∃ content,
            @open_read Sample.project_os filename = Ok content
            ∧ @parse_method_call_tokens Sample.provider Sample.spec_visitor
                content = Ok report.
Proof.
  assert (Forall (λ name, entry_name name = true)
                 ["a.py"; ".py"; "notes.txt"; "sub"; "bad.py"]) as Hnames
    by (repeat constructor).
  assert (opened (Sample.run Sample.project_os ["/proj"]).2
          = ["/proj/a.py"; "/proj/bad.py"]) as Hopened by reflexivity.
  split_and!; [reflexivity | reflexivity | reflexivity | exact Hnames
              | reflexivity | exact Hopened |].
  destruct (@reports_keyed_by_opened_paths Sample.project_os Sample.provider
              Sample.spec_visitor Sample.json eq_refl ["/proj"] "/proj" [] []
              (Sample.run Sample.project_os ["/proj"]).2)
    as (files & data & text & σ1 & Hcollect & _ & _ & Hdom & Hfiles & Hreports).
  - reflexivity.
  - intros entries [= <-]. exact Hnames.
  - reflexivity.
  - exists data. split_and!.
    + by rewrite Hcollect.
    + rewrite Hdom. f_equal. rewrite Hopened in Hfiles. by rewrite Hfiles.
    + exact Hreports.
Defined.

Lemma file_and_directory_reports_agree_witness :
  isabs (@getcwd Sample.project_os) = true
  ∧ Forall (λ name, entry_name name = true)
           ["a.py"; ".py"; "notes.txt"; "sub"; "bad.py"]
  ∧ @isdir Sample.project_os "/proj/bad.py" = false
  ∧ @main_listdir_loop Sample.project_os Sample.provider Sample.spec_visitor
      (@abspath Sample.project_os "/proj")
      ["a.py"; ".py"; "notes.txt"; "sub"; "bad.py"] ∅ []
    = (Ok {[ "/proj/a.py" := {[ "imports" := ["os"; "json"];
                                "calls" := ["os"; "json"; "undefined_call"] ]};
             "/proj/bad.py" := empty_report ]},
       [Open "/proj/a.py"; Open "/proj/bad.py"])
  ∧ Sample.run Sample.project_os ["/proj/bad.py"]
    = match @json_dumps Sample.json {[ "/proj/bad.py" := empty_report ]} with
      | Ok out => (Ok (), [Open "/proj/bad.py"; Print out])
      | Raise e => (Raise e, [Open "/proj/bad.py"])
      end.
Proof.
  assert (Forall (λ name, entry_name name = true)
                 ["a.py"; ".py"; "notes.txt"; "sub"; "bad.py"]) as Hnames
    by (repeat constructor).
  split_and!; [reflexivity | exact Hnames | reflexivity | reflexivity |].
  apply (@file_and_directory_reports_agree Sample.project_os Sample.provider
           Sample.spec_visitor Sample.json eq_refl "/proj"
           ["a.py"; ".py"; "notes.txt"; "sub"; "bad.py"]
           {[ "/proj/a.py" := {[ "imports" := ["os"; "json"];
                                 "calls" := ["os"; "json"; "undefined_call"] ]};
              "/proj/bad.py" := empty_report ]}
           [] [Open "/proj/a.py"; Open "/proj/bad.py"]
           "/proj/bad.py" empty_report []);
    [exact Hnames | reflexivity | reflexivity | reflexivity].
Defined.

Lemma path_argument_is_normalised_witness :
  isabs (@getcwd Sample.project_os) = true
  ∧ startswith "-" "../../proj/./sub//"
    && negb (String.eqb "../../proj/./sub//" "-") = false
  ∧ @abspath Sample.project_os "../../proj/./sub//" = "/proj/sub"
  ∧ @main Sample.project_os Sample.provider Sample.spec_visitor Sample.json
      [@abspath Sample.project_os "../../proj/./sub//"] []
    = @main Sample.project_os Sample.provider Sample.spec_visitor Sample.json
        ["../../proj/./sub//"] [].
Proof.
  split_and!; [reflexivity | reflexivity | reflexivity |].
  apply (@path_argument_is_normalised Sample.project_os Sample.provider
           Sample.spec_visitor Sample.json eq_refl "../../proj/./sub//" []).
  reflexivity.
Defined.

Lemma parse_file_abspath_witness :
  isabs (@getcwd Sample.project_os) = true
  ∧ @abspath Sample.project_os "../../proj/a.py" = "/proj/a.py"
  ∧ @parse_file Sample.project_os Sample.provider Sample.spec_visitor
      (@abspath Sample.project_os "../../proj/a.py") []
    = @parse_file Sample.project_os Sample.provider Sample.spec_visitor
        "../../proj/a.py" [].
Proof.
  split_and!; [reflexivity | reflexivity |].
  apply (@parse_file_abspath Sample.project_os Sample.provider
           Sample.spec_visitor eq_refl "../../proj/a.py" []).
Defined.
